(** * jsons: the call adapter ([jsons/decorators.py]) and the union
    deserializer ([jsons/deserializers/default_union.py])

    The two modules are embedded as functions in a small trace-and-exception
    monad.  Every call that leaves the module under study (the conversion
    port [load]/[dump], [inspect.signature], the decorated callable, an
    [await]) appends one event to the trace, so that statements of the form
    "is never passed through the port" or "is attempted before" are
    statements about the trace. *)

From stdpp Require Import base strings list gmap.

Set Default Proof Using "Type".

(** ** Exceptions and outcomes *)

(** The exceptions the two modules raise themselves, and [Raised] for any
    exception coming out of a collaborator; its flag records whether the
    exception class derives from [jsons.exceptions.JsonsError].  [V] is the
    type of Python objects and [T] the type of conversion targets. *)
Inductive exn_ (V T : Type) :=
| DeserializationError (message : string) (source : V) (target : T)
| IndexError
| KeyError (key : string)
| Exception (message : string)
| Raised (jsons_family : bool) (class_name : string).

Arguments DeserializationError {V T} message source target.
Arguments IndexError {V T}.
Arguments KeyError {V T} key.
Arguments Exception {V T} message.
Arguments Raised {V T} jsons_family class_name.

(** [isinstance(e, JsonsError)]; [DeserializationError] is a subclass of
    [JsonsError] in [jsons.exceptions]. *)
Definition is_JsonsError {V T} (e : exn_ V T) : bool :=
  match e with
  | DeserializationError _ _ _ => true
  | Raised fam _ => fam
  | IndexError | KeyError _ | Exception _ => false
  end.

Inductive result_ (V T A : Type) :=
| Ok (a : A)
| Raise (e : exn_ V T).

Arguments Ok {V T A} a.
Arguments Raise {V T A} e.

(** ** Python objects *)

(** The carriers are left abstract: [value] is any Python object, [pytype]
    any object used as a conversion target (a class or a typing construct).
    The observations the two modules make on them are the fields. *)
Class Python := {
  value : Type;
  pytype : Type;
  (** [hasattr(obj, name)] *)
  hasattr : value → string → bool;
  (** [inspect.isawaitable(obj)] *)
  isawaitable : value → bool;
  (** [await obj]: what the awaitable resolves to, or the exception that
      awaiting it raises *)
  await : value → result_ value pytype value;
  (** [type(obj)], only used to state what an error message should name *)
  type_of : value → pytype;
  (** [str(cls)] *)
  str : pytype → string;
  (** [cls.__args__] *)
  __args__ : pytype → list pytype;
  (** [jsons._compatibility_impl.get_union_params] *)
  get_union_params : pytype → list pytype;
  (** [jsons._common_impl.get_class_name(cls, fork_inst=...)] *)
  get_class_name : pytype → value → string;
}.

Abbreviation exn := (exn_ value pytype).
Abbreviation result := (result_ value pytype).

(** Keyword arguments ([**kwargs]) are a dict from names to objects. *)
Abbreviation kwargs_t := (gmap string value).

(** ** The trace monad *)

Module Traced.
Section Traced.
Context `{Python} {Ev : Type}.

(** A computation yields the events it emitted, in order, and its outcome. *)
Definition traced (A : Type) : Type := (list Ev * result A)%type.

Definition ret {A} (a : A) : traced A := ([], Ok a).
Definition raise {A} (e : exn) : traced A := ([], Raise e).
Definition emit (ev : Ev) : traced unit := ([ev], Ok tt).
Definition lift {A} (r : result A) : traced A := ([], r).

Definition bind {A B} (m : traced A) (k : A → traced B) : traced B :=
  match m with
  | (tr, Ok a) => let '(tr', r) := k a in (tr ++ tr', r)
  | (tr, Raise e) => (tr, Raise e)
  end.

(** [try: m  except <class>: handler], where [catches e] is the
    [isinstance] test of the except clause. *)
Definition try_except {A} (m : traced A) (catches : exn → bool)
    (handler : traced A) : traced A :=
  match m with
  | (tr, Ok a) => (tr, Ok a)
  | (tr, Raise e) =>
      if catches e then let '(tr', r) := handler in (tr ++ tr', r)
      else (tr, Raise e)
  end.

Definition events {A} (m : traced A) : list Ev := m.1.
Definition outcome {A} (m : traced A) : result A := m.2.

(** [seq[i]] *)
Definition index {A} (l : list A) (i : nat) : traced A :=
  match l !! i with
  | Some a => ret a
  | None => raise IndexError
  end.

(** [d[key]] on a dict *)
Definition getitem {A} (d : gmap string A) (key : string) : traced A :=
  match d !! key with
  | Some a => ret a
  | None => raise (KeyError key)
  end.
End Traced.
#[global] Arguments traced {_} Ev A.
End Traced.
Import Traced.

Notation "x <- c1 ;; c2" := (bind c1 (λ x, c2))
  (at level 100, c1 at next level, right associativity).
Notation "c1 ;;; c2" := (bind c1 (λ _, c2))
  (at level 100, right associativity).

(** ** Strings *)

Definition dquote : string := String (Ascii.ascii_of_nat 34) EmptyString.

(** [sep.join(parts)] *)
Definition join (sep : string) (parts : list string) : string :=
  String.concat sep parts.

(** [needle in hay] on strings *)
Fixpoint occurs (needle hay : string) : bool :=
  String.prefix needle hay ||
  match hay with
  | EmptyString => false
  | String _ hay' => occurs needle hay'
  end.

(** * [jsons/deserializers/default_union.py] *)

Module DefaultUnion.
Section DefaultUnion.
Context `{Python}.

(** [jsons._main_impl.load(obj, cls, **kwargs)]: the Load port. *)
Variable load : value → pytype → kwargs_t → result value.

Inductive event :=
| LoadCall (obj : value) (cls : pytype) (kwargs : kwargs_t).

Definition call_load (obj : value) (cls : pytype) (kwargs : kwargs_t)
    : traced event value :=
  emit (LoadCall obj cls kwargs) ;;; lift (load obj cls kwargs).

(** The message built in the [else] branch. *)
Definition err_msg (cls : pytype) (fork_inst : value) : string :=
  let args_msg :=
    join ", " (map (λ cls_, get_class_name cls_ fork_inst) (__args__ cls)) in
  "Could not match the object of type " +:+ dquote +:+ str cls +:+ dquote
    +:+ " to any type of the Union: " +:+ args_msg.

(** The [else] branch of the loop: reached when the candidates are
    exhausted (the loop has no [break]). *)
Definition orelse (obj : value) (cls : pytype) (kwargs : kwargs_t)
    : traced event value :=
  fork_inst <- getitem kwargs "fork_inst" ;;
  raise (DeserializationError (err_msg cls fork_inst) obj cls).

(** [for sub_type in ...: try: return load(...) except JsonsError: pass] *)
Fixpoint for_sub_type (sub_types : list pytype) (obj : value) (cls : pytype)
    (kwargs : kwargs_t) : traced event value :=
  match sub_types with
  | [] => orelse obj cls kwargs
  | sub_type :: rest =>
      try_except (call_load obj sub_type kwargs) is_JsonsError
        (for_sub_type rest obj cls kwargs)
  end.

Definition default_union_deserializer (obj : value) (cls : pytype)
    (kwargs : kwargs_t) : traced event value :=
  for_sub_type (get_union_params cls) obj cls kwargs.

(** The attempts made on a list of candidates, as trace events. *)
Definition attempts (obj : value) (kwargs : kwargs_t)
    (sub_types : list pytype) : list event :=
  map (λ t, LoadCall obj t kwargs) sub_types.

(** [load] fails on [t] with an exception of the [JsonsError] family. *)
Definition conversion_fails (obj : value) (kwargs : kwargs_t) (t : pytype)
    : Prop :=
  ∃ e, load obj t kwargs = Raise e ∧ is_JsonsError e = true.

End DefaultUnion.
End DefaultUnion.

(** * [jsons/decorators.py] *)

Module Decorators.
Section Decorators.
Context `{Python}.

(** ** What [inspect.signature] returns *)

(** An annotation is either the sentinel [Parameter.empty] or the
    annotated object, which may be [None]. *)
Inductive annotation_t :=
| Parameter_empty
| Annotated (cls : option pytype).

Record Param := {
  name : string;
  annotation : annotation_t;
}.

(** [parameters] is the ordered mapping [sig.parameters]; each entry is
    keyed by the [name] of the [inspect.Parameter] it holds. *)
Record Signature := {
  parameters : list Param;
  return_annotation : annotation_t;
}.

(** ** Callables *)

(** What kind of object is handed to the decorator: a function ([def] or
    [async def]), a [staticmethod] or [classmethod] descriptor, or a
    class.  [staticmethod] and [classmethod] are unrelated builtin
    classes. *)
Inductive object_kind :=
| FunctionObj (coroutine : bool)
| StaticmethodObj
| ClassmethodObj
| TypeObj.

Record callable := {
  kind : object_kind;
  __name__ : string;
  __signature__ : Signature;
  (** the outcome of the call expression [decorated( *args, **kwargs)] *)
  __call__ : list value → kwargs_t → result value;
}.

Definition isinstance_staticmethod (decorated : callable) : bool :=
  match kind decorated with StaticmethodObj => true | _ => false end.

Definition isinstance_type (decorated : callable) : bool :=
  match kind decorated with TypeObj => true | _ => false end.

Definition iscoroutinefunction (decorated : callable) : bool :=
  match kind decorated with FunctionObj coroutine => coroutine | _ => false end.

(** The conversion port: the outcome of the call expression
    [mapper(obj, cls=cls, fork_inst=fork_inst, **mapper_kwargs)], for
    [mapper] one of [jsons.load] and [jsons.dump]. *)
Definition mapper_t : Type :=
  value → option pytype → value → kwargs_t → result value.

(** ** Events *)

Inductive event :=
| SignatureCall (func : callable)
| MapperCall (obj : value) (cls : option pytype) (fork_inst : value)
    (mapper_kwargs : kwargs_t)
| DecoratedCall (func : callable) (args : list value) (kwargs : kwargs_t)
| AwaitCall (awaitable : value)
| WarnCall (message : string).

Abbreviation M := (traced event).

(** [inspect.signature(func)] *)
Definition signature (func : callable) : M Signature :=
  emit (SignatureCall func) ;;; ret (__signature__ func).

Definition call_mapper (mapper : mapper_t) (obj : value)
    (cls : option pytype) (fork_inst : value) (mapper_kwargs : kwargs_t)
    : M value :=
  emit (MapperCall obj cls fork_inst mapper_kwargs) ;;;
  lift (mapper obj cls fork_inst mapper_kwargs).

Definition call_decorated (decorated : callable) (args : list value)
    (kwargs : kwargs_t) : M value :=
  emit (DecoratedCall decorated args kwargs) ;;;
  lift (__call__ decorated args kwargs).

Definition call_await (awaitable : value) : M value :=
  emit (AwaitCall awaitable) ;;; lift (await awaitable).

(** [params[key]] on the ordered mapping of parameters *)
Definition params_getitem (params : list Param) (key : string)
    : M Param :=
  match find (λ p, bool_decide (name p = key)) params with
  | Some p => ret p
  | None => raise (KeyError key)
  end.

(** A list comprehension [[f(x) for x in xs]]: elements are computed in
    order and the first exception ends it. *)
Fixpoint comprehension {A B} (f : A → M B) (xs : list A) : M (list B) :=
  match xs with
  | [] => ret []
  | x :: xs' => y <- f x ;; ys <- comprehension f xs' ;; ret (y :: ys)
  end.

(** [annotation if annotation != Parameter.empty else None] *)
Definition cls_of (a : annotation_t) : option pytype :=
  match a with
  | Parameter_empty => None
  | Annotated cls => cls
  end.

(** ** The functions of the module *)

Definition _get_params_sig (args : list value) (func : callable)
    : M (list (value * Param)) :=
  sig <- signature func ;;
  let params := parameters sig in
  let param_names := map name params in
  comprehension
    (λ i, arg <- index args i ;;
          param_name <- index param_names i ;;
          param <- params_getitem params param_name ;;
          ret (arg, param))
    (seq 0 (length args)).

(** [sig.name in ('self', 'cls') and hasattr(arg, decorated.__name__)] *)
Definition is_receiver (decorated : callable) (arg : value) (sig : Param)
    : bool :=
  (bool_decide (name sig = "self") || bool_decide (name sig = "cls"))
  && hasattr arg (__name__ decorated).

(** The loop of [_map_args]; [new_args] is the list being appended to. *)
Fixpoint for_arg_sig (params_sig : list (value * Param))
    (decorated : callable) (fork_inst : value) (mapper : mapper_t)
    (mapper_kwargs : kwargs_t) (new_args : list value) : M (list value) :=
  match params_sig with
  | [] => ret new_args
  | (arg, sig) :: rest =>
      new_arg <-
        (if is_receiver decorated arg sig then ret arg
         else
           let cls := cls_of (annotation sig) in
           call_mapper mapper arg cls fork_inst mapper_kwargs) ;;
      for_arg_sig rest decorated fork_inst mapper mapper_kwargs
        (new_args ++ [new_arg])
  end.

Definition _map_args (args : list value) (decorated : callable)
    (fork_inst : value) (mapper : mapper_t) (mapper_kwargs : kwargs_t)
    : M (list value) :=
  params_sig <- _get_params_sig args decorated ;;
  for_arg_sig params_sig decorated fork_inst mapper mapper_kwargs [].

Definition _map_returnvalue (returnvalue : value) (decorated : callable)
    (fork_inst : value) (mapper : mapper_t) (mapper_kwargs : kwargs_t)
    : M value :=
  sig <- signature decorated ;;
  let cls := cls_of (return_annotation sig) in
  call_mapper mapper returnvalue cls fork_inst mapper_kwargs.

(** [mapper] is [None] or a function object, which is always truthy. *)
Definition _run_decorated (decorated : callable) (mapper : option mapper_t)
    (fork_inst : value) (args : list value) (kwargs mapper_kwargs : kwargs_t)
    : M value :=
  new_args <-
    match mapper with
    | Some mapper => _map_args args decorated fork_inst mapper mapper_kwargs
    | None => ret args
    end ;;
  call_decorated decorated new_args kwargs.

(** The closures of [_get_decorator], with the variables they capture
    made parameters. *)
Definition _wrapper (parameters returnvalue : bool) (fork_inst : value)
    (mapper : mapper_t) (mapper_kwargs : kwargs_t) (decorated : callable)
    (args : list value) (kwargs : kwargs_t) : M value :=
  result <- _run_decorated decorated
              (if parameters then Some mapper else None)
              fork_inst args kwargs mapper_kwargs ;;
  if returnvalue
  then _map_returnvalue result decorated fork_inst mapper mapper_kwargs
  else ret result.

(** The body of the coroutine that a call of [_async_wrapper] returns:
    what happens when that coroutine is awaited. *)
Definition _async_wrapper (parameters returnvalue : bool) (fork_inst : value)
    (mapper : mapper_t) (mapper_kwargs : kwargs_t) (decorated : callable)
    (args : list value) (kwargs : kwargs_t) : M value :=
  result <- _run_decorated decorated
              (if parameters then Some mapper else None)
              fork_inst args kwargs mapper_kwargs ;;
  result <- (if isawaitable result then call_await result else ret result) ;;
  if returnvalue
  then _map_returnvalue result decorated fork_inst mapper mapper_kwargs
  else ret result.

(** What [_decorator] returns: a plain function or a coroutine function. *)
Inductive wrapper :=
| OrdinaryWrapper (run : list value → kwargs_t → M value)
| SuspendingWrapper (run : list value → kwargs_t → M value).

Definition _decorator (parameters returnvalue : bool) (fork_inst : value)
    (mapper : mapper_t) (mapper_kwargs : kwargs_t) (decorated : callable)
    : M wrapper :=
  if isinstance_staticmethod decorated then
    emit (WarnCall
      ("You cannot decorate a static- or classmethod. "
       +:+ "You can still obtain the desired behaviour by "
       +:+ "decorating your method first and then place "
       +:+ "@staticmethod/@classmethod on top (switching the "
       +:+ "order).")) ;;;
    raise (Exception "Cannot decorate a static- or classmethod.")
  else if isinstance_type decorated then
    raise (Exception "Cannot decorate a class.")
  else
    ret (if iscoroutinefunction decorated
         then SuspendingWrapper
                (_async_wrapper parameters returnvalue fork_inst mapper
                   mapper_kwargs decorated)
         else OrdinaryWrapper
                (_wrapper parameters returnvalue fork_inst mapper
                   mapper_kwargs decorated)).

Definition _get_decorator (parameters returnvalue : bool)
    (fork_inst : value) (mapper : mapper_t) (mapper_kwargs : kwargs_t)
    : callable → M wrapper :=
  _decorator parameters returnvalue fork_inst mapper mapper_kwargs.

(** ** Vocabulary for the statements *)

(** The port calls that the loop of [_map_args] makes on [pairs] when
    none of them raises: one per pair that is not a receiver, with the
    class of the parameter's annotation, in order. *)
Definition conversions (decorated : callable) (fork_inst : value)
    (mapper_kwargs : kwargs_t) (pairs : list (value * Param)) : list event :=
  flat_map
    (λ '(arg, sig),
       if is_receiver decorated arg sig then []
       else [MapperCall arg (cls_of (annotation sig)) fork_inst mapper_kwargs])
    pairs.

(** [new_arg] is what the wrapped callable gets for the pair: the
    argument itself for a receiver, what the port returns otherwise. *)
Definition forwarded (decorated : callable) (fork_inst : value)
    (mapper : mapper_t) (mapper_kwargs : kwargs_t) (pair : value * Param)
    (new_arg : value) : Prop :=
  if is_receiver decorated pair.1 pair.2 then new_arg = pair.1
  else mapper pair.1 (cls_of (annotation pair.2)) fork_inst mapper_kwargs
       = Ok new_arg.

(** The argument step of [_run_decorated] as the wrappers call it, with
    [mapper if parameters else None]. *)
Definition arg_step (parameters : bool) (decorated : callable)
    (fork_inst : value) (mapper : mapper_t) (args : list value)
    (mapper_kwargs : kwargs_t) : M (list value) :=
  if parameters
  then _map_args args decorated fork_inst mapper mapper_kwargs
  else ret args.

(** One of the two wrappers. *)
Definition wrapper_run (suspending : bool)
    : bool → bool → value → mapper_t → kwargs_t → callable →
      list value → kwargs_t → M value :=
  if suspending then _async_wrapper else _wrapper.

(** The events a run of a wrapper may consist of: the inspection of the
    wrapped callable, a port call on a positional argument, the call of
    the wrapped callable with the keyword arguments supplied, the await
    of what it returned, and a port call on [result]. *)
Definition wrapper_event (decorated : callable) (fork_inst : value)
    (args : list value) (kwargs mapper_kwargs : kwargs_t)
    (result : result value) (ev : event) : Prop :=
  ev = SignatureCall decorated
  ∨ (∃ arg cls, arg ∈ args
       ∧ ev = MapperCall arg cls fork_inst mapper_kwargs)
  ∨ (∃ new_args, ev = DecoratedCall decorated new_args kwargs)
  ∨ (∃ aw, ev = AwaitCall aw)
  ∨ (∃ v cls, result = Ok v
       ∧ ev = MapperCall v cls fork_inst mapper_kwargs).

Definition is_SignatureCall (ev : event) : bool :=
  match ev with SignatureCall _ => true | _ => false end.


(** How many times [inspect.signature] is called in a trace. *)
Definition introspections (tr : list event) : nat :=
  length (List.filter is_SignatureCall tr).

(** [jsons.load] and [jsons.dump] *)
Variables load dump : mapper_t.

Definition loaded (parameters returnvalue : bool) (fork_inst : value)
    (kwargs : kwargs_t) : callable → M wrapper :=
  _get_decorator parameters returnvalue fork_inst load kwargs.

Definition dumped (parameters returnvalue : bool) (fork_inst : value)
    (kwargs : kwargs_t) : callable → M wrapper :=
  _get_decorator parameters returnvalue fork_inst dump kwargs.
End Decorators.
End Decorators.

(** * A concrete universe

    A small instance of the interface, used to run the two modules on
    explicit inputs: a handful of builtin objects and classes, and a test
    double of the conversion port. *)

Module Example.
Inductive obj :=
| ONone
| OInt (n : Z)
| OStr (s : string)
| ODatetime (iso : string)
| OInstance (class_name : string) (attrs : list string)
| OCoroutine (resolves_to : obj)
| OFork.

#[warnings="-register-all"]
Inductive ty :=
| TInt
| TStr
| TBool
| TFloat
| TDatetime
| TClass (class_name : string)
| TUnion (args : list ty).

Fixpoint class_name_of (t : ty) : string :=
  match t with
  | TInt => "int"
  | TStr => "str"
  | TBool => "bool"
  | TFloat => "float"
  | TDatetime => "datetime"
  | TClass n => n
  | TUnion args => "Union[" +:+ join ", " (map class_name_of args) +:+ "]"
  end.

Definition str_of (t : ty) : string :=
  match t with
  | TUnion _ => "typing." +:+ class_name_of t
  | _ => "<class '" +:+ class_name_of t +:+ "'>"
  end.

Definition ex_type_of (o : obj) : ty :=
  match o with
  | ONone => TClass "NoneType"
  | OInt _ => TInt
  | OStr _ => TStr
  | ODatetime _ => TDatetime
  | OInstance n _ => TClass n
  | OCoroutine _ => TClass "coroutine"
  | OFork => TClass "type"
  end.

Definition ex_hasattr (o : obj) (attr : string) : bool :=
  match o with
  | OInstance _ attrs => bool_decide (attr ∈ attrs)
  | _ => false
  end.

Definition ex_isawaitable (o : obj) : bool :=
  match o with OCoroutine _ => true | _ => false end.

Definition ex_await (o : obj) : result_ obj ty obj :=
  match o with
  | OCoroutine v => Ok v
  | _ => Raise (Raised false "TypeError")
  end.

Definition union_args (t : ty) : list ty :=
  match t with TUnion args => args | _ => [] end.

#[export] Instance python : Python := {|
  value := obj;
  pytype := ty;
  hasattr := ex_hasattr;
  isawaitable := ex_isawaitable;
  await := ex_await;
  type_of := ex_type_of;
  str := str_of;
  __args__ := union_args;
  get_union_params := union_args;
  get_class_name := λ t _, class_name_of t;
|}.

(** Lets [obj] and [ty] be recognised as the carriers of [python]. *)
Canonical Structure python.

(** A Load port: strings load as [str] and as [datetime], integers as
    [int]; loading into a user class breaks with a [TypeError] (not a
    [JsonsError]); everything else is a [DeserializationError]. *)
Definition ex_load (o : value) (t : pytype) (kwargs : kwargs_t)
    : result value :=
  match t, o with
  | TStr, OStr s => Ok (OStr s)
  | TInt, OInt n => Ok (OInt n)
  | TDatetime, OStr s => Ok (ODatetime s)
  | TClass _, _ => Raise (Raised false "TypeError")
  | _, _ => Raise (DeserializationError "Invalid type" o t)
  end.

(** The same port with the calling convention of the decorators; without
    a target class the object is returned as it is. *)
Definition ex_mapper (o : value) (cls : option pytype) (fork_inst : value)
    (kwargs : kwargs_t) : result value :=
  match cls with
  | Some t => ex_load o t kwargs
  | None => Ok o
  end.

Definition fork_kwargs : kwargs_t := {[ "fork_inst" := OFork ]}.

Import Decorators.

(** [def func(arg: datetime) -> datetime: return '2018-10-04T21:57:00Z'],
    the example of the docstring of [loaded]. *)
Definition func : callable := {|
  kind := FunctionObj false;
  __name__ := "func";
  __signature__ := {|
    parameters :=
      [ {| name := "arg"; annotation := Annotated (Some TDatetime) |} ];
    return_annotation := Annotated (Some TDatetime) |};
  __call__ := λ _ _, Ok (OStr "2018-10-04T21:57:00Z");
|}.


(** [def scale(self, factor: int) -> int], a method of [Circle]; it
    returns its second argument. *)
Definition scale : callable := {|
  kind := FunctionObj false;
  __name__ := "scale";
  __signature__ := {|
    parameters :=
      [ {| name := "self"; annotation := Parameter_empty |};
        {| name := "factor"; annotation := Annotated (Some TInt) |} ];
    return_annotation := Annotated (Some TInt) |};
  __call__ := λ args _,
    match args with
    | [_; x] => Ok x
    | _ => Raise (Raised false "TypeError")
    end;
|}.

Definition circle : value := OInstance "Circle" ["radius"; "scale"].

(** [classmethod(make)] for [def make(cls, arg: int)]. *)
Definition make_classmethod : callable := {|
  kind := ClassmethodObj;
  __name__ := "make";
  __signature__ := {|
    parameters :=
      [ {| name := "cls"; annotation := Parameter_empty |};
        {| name := "arg"; annotation := Annotated (Some TInt) |} ];
    return_annotation := Parameter_empty |};
  __call__ := λ _ _, Raise (Raised false "TypeError");
|}.
End Example.

(** * Stacked adapters *)

Module Stacked.
Section Stacked.
Context `{Python}.
Import Decorators.

(** What [inspect.signature] returns for [def _wrapper( *args, **kwargs)]:
    the module does not copy the name or the signature of the wrapped
    callable to the wrapper, so the wrapper has the two parameters [args]
    and [kwargs], without annotations, and no return annotation. *)
Definition wrapper_signature : Signature := {|
  parameters := [ {| name := "args"; annotation := Parameter_empty |};
                  {| name := "kwargs"; annotation := Parameter_empty |} ];
  return_annotation := Parameter_empty;
|}.

(** The ordinary wrapper as an object that can be decorated again: a plain
    function named [_wrapper]; calling it is a run of the wrapper. *)
Definition _wrapper_callable (parameters returnvalue : bool)
    (fork_inst : value) (mapper : mapper_t) (mapper_kwargs : kwargs_t)
    (decorated : callable) : callable := {|
  kind := FunctionObj false;
  __name__ := "_wrapper";
  __signature__ := wrapper_signature;
  __call__ := λ args kwargs,
    outcome (_wrapper parameters returnvalue fork_inst mapper mapper_kwargs
               decorated args kwargs);
|}.
End Stacked.
End Stacked.

(** * More inputs *)

Module Inputs.
Import Example Decorators.

(** [def broken(x): raise RuntimeError] *)
Definition broken : callable := {|
  kind := FunctionObj false;
  __name__ := "broken";
  __signature__ := {|
    parameters := [ {| name := "x"; annotation := Parameter_empty |} ];
    return_annotation := Parameter_empty |};
  __call__ := λ _ _, Raise (Raised false "RuntimeError");
|}.

(** [def add(a: int, b: int, c: int) -> int]; it returns its first
    argument. *)
Definition add : callable := {|
  kind := FunctionObj false;
  __name__ := "add";
  __signature__ := {|
    parameters :=
      [ {| name := "a"; annotation := Annotated (Some TInt) |};
        {| name := "b"; annotation := Annotated (Some TInt) |};
        {| name := "c"; annotation := Annotated (Some TInt) |} ];
    return_annotation := Annotated (Some TInt) |};
  __call__ := λ args _,
    match args with
    | x :: _ => Ok x
    | [] => Raise (Raised false "TypeError")
    end;
|}.
End Inputs.

(** * A universe with a task that can be cancelled *)

Module Cancellation.
Inductive obj :=
| CStr (s : string)
| CTask (resolves_to : option string).

Definition c_await (o : obj) : result_ obj unit obj :=
  match o with
  | CTask (Some s) => Ok (CStr s)
  | CTask None => Raise (Raised false "CancelledError")
  | CStr _ => Raise (Raised false "TypeError")
  end.

Definition python : Python := {|
  value := obj;
  pytype := unit;
  hasattr := λ _ _, false;
  isawaitable := λ o, match o with CTask _ => true | CStr _ => false end;
  await := c_await;
  type_of := λ _, tt;
  str := λ _, "object";
  __args__ := λ _, [];
  get_union_params := λ _, [];
  get_class_name := λ _ _, "object";
|}.

(** A port that returns every object as it is. *)
Definition c_mapper (o : obj) (cls : option unit) (fork_inst : obj)
    (kwargs : gmap string obj) : result_ obj unit obj :=
  Ok o.

(** Calling [job] yields a coroutine that is cancelled before it
    completes. *)
Definition job_call (args : list obj) (kwargs : gmap string obj)
    : result_ obj unit obj :=
  Ok (CTask None).

(** [async def job()] *)
Definition job : Decorators.callable (H := python) :=
  @Decorators.Build_callable python (Decorators.FunctionObj true) "job"
    (@Decorators.Build_Signature python [] Decorators.Parameter_empty)
    job_call.
End Cancellation.

(** * Properties *)

(** ** The trace monad *)

Section TracedFacts.
Context `{Python} {Ev : Type}.

Lemma bind_ok {A B} (tr : list Ev) (a : A) (k : A → traced Ev B) :
  bind (tr, Ok a) k = (tr ++ (k a).1, (k a).2).
Proof. unfold bind. by destruct (k a). Qed.

Lemma bind_raise {A B} (tr : list Ev) (e : exn) (k : A → traced Ev B) :
  bind (tr, Raise e) k = (tr, Raise e).
Proof. done. Qed.

Lemma bind_ret_l {A B} (a : A) (k : A → traced Ev B) : bind (ret a) k = k a.
Proof. unfold bind, ret. by destruct (k a). Qed.

Lemma bind_raise_l {A B} (e : exn) (k : A → traced Ev B) :
  bind (raise e) k = raise e.
Proof. done. Qed.

Lemma index_Some {A} (l : list A) i a :
  l !! i = Some a → index (Ev:=Ev) l i = ret a.
Proof. unfold index. by intros ->. Qed.

Lemma index_None {A} (l : list A) i :
  l !! i = None → index (Ev:=Ev) l i = raise IndexError.
Proof. unfold index. by intros ->. Qed.

Lemma bind_ret_r {A} (m : traced Ev A) : bind m ret = m.
Proof.
  destruct m as [tr [a|e]]; [|done]. rewrite bind_ok; simpl.
  by rewrite app_nil_r.
Qed.

Lemma bind_emit {B} (ev : Ev) (k : unit → traced Ev B) :
  bind (emit ev) k = (ev :: (k tt).1, (k tt).2).
Proof. unfold emit. by rewrite bind_ok. Qed.

Lemma bind_assoc {A B C} (m : traced Ev A) (k : A → traced Ev B)
    (k' : B → traced Ev C) :
  bind (bind m k) k' = bind m (λ a, bind (k a) k').
Proof.
  destruct m as [tr [a|e]]; [|done]. unfold bind.
  destruct (k a) as [tr1 [b|e]]; [|done].
  destruct (k' b) as [tr2 r]. by rewrite app_assoc.
Qed.

Lemma events_bind {A B} (m : traced Ev A) (k : A → traced Ev B) :
  events (bind m k) =
    events m ++ match outcome m with Ok a => events (k a) | Raise _ => [] end.
Proof.
  destruct m as [tr [a|e]]; unfold events, outcome; simpl.
  - by destruct (k a).
  - by rewrite app_nil_r.
Qed.
End TracedFacts.

(** ** Strings *)

Lemma prefix_append (n a b : string) :
  String.prefix n a = true → String.prefix n (a +:+ b) = true.
Proof.
  revert a. induction n as [|c n IH]; intros [|c' a]; simpl; try done.
  - by destruct b.
  - destruct (Ascii.ascii_dec c c'); [apply IH | done].
Qed.

Lemma prefix_refl (n : string) : String.prefix n n = true.
Proof.
  induction n as [|c n IH]; simpl; [done|].
  by destruct (Ascii.ascii_dec c c).
Qed.

Lemma occurs_refl (n : string) : occurs n n = true.
Proof. destruct n; [done|]. cbn [occurs]. by rewrite prefix_refl. Qed.

Lemma occurs_append_l (n a b : string) :
  occurs n a = true → occurs n (a +:+ b) = true.
Proof.
  induction a as [|c a IH]; cbn [occurs].
  - rewrite orb_false_r. destruct n; [|done]. intros _. by destruct b.
  - intros [Hp|Ho]%orb_true_iff.
    change (String c a +:+ b) with (String c (a +:+ b)). cbn [occurs].
    all: apply orb_true_iff.
    + left. by apply (prefix_append n (String c a) b).
    + right. by apply IH.
Qed.

Lemma occurs_append_r (n a b : string) :
  occurs n b = true → occurs n (a +:+ b) = true.
Proof.
  intros Hb. induction a as [|c a IH]; [done|].
  change (String c a +:+ b) with (String c (a +:+ b)). cbn [occurs].
  apply orb_true_iff. by right.
Qed.

Lemma occurs_join (sep n : string) (parts : list string) :
  n ∈ parts → occurs n (join sep parts) = true.
Proof.
  unfold join. induction parts as [|p parts IH]; [by intros ?%elem_of_nil|].
  intros [->|Hin]%elem_of_cons; simpl.
  - destruct parts; [apply occurs_refl|].
    apply occurs_append_l, occurs_refl.
  - destruct parts as [|q parts]; [by apply elem_of_nil in Hin|].
    by apply occurs_append_r, occurs_append_r, IH.
Qed.

(** ** Lists *)

Lemma lookup_map {A B} (f : A → B) (l : list A) (i : nat) :
  map f l !! i = f <$> l !! i.
Proof. exact (list_lookup_fmap f l i). Qed.

(** ** The union deserializer *)

Section UnionFacts.
Context `{Python}.
Import DefaultUnion.
Variable load : value → pytype → kwargs_t → result value.

Lemma for_sub_type_skip pre rest obj cls kwargs :
  Forall (conversion_fails load obj kwargs) pre →
  for_sub_type load (pre ++ rest) obj cls kwargs =
    (attempts obj kwargs pre ++ (for_sub_type load rest obj cls kwargs).1,
     (for_sub_type load rest obj cls kwargs).2).
Proof.
  induction 1 as [|t pre [e [Hl He]] _ IH]; simpl.
  - by destruct (for_sub_type load rest obj cls kwargs).
  - rewrite IH. unfold call_load, lift, emit, bind, try_except; simpl.
    by rewrite Hl, He.
Qed.

Lemma for_sub_type_head_ok t rest obj cls kwargs v :
  load obj t kwargs = Ok v →
  for_sub_type load (t :: rest) obj cls kwargs =
    ([LoadCall obj t kwargs], Ok v).
Proof.
  intros Hl. simpl. unfold call_load, lift, emit, bind, try_except; simpl.
  by rewrite Hl.
Qed.

Lemma for_sub_type_head_other t rest obj cls kwargs e :
  load obj t kwargs = Raise e → is_JsonsError e = false →
  for_sub_type load (t :: rest) obj cls kwargs =
    ([LoadCall obj t kwargs], Raise e).
Proof.
  intros Hl He. simpl. unfold call_load, lift, emit, bind, try_except; simpl.
  by rewrite Hl, He.
Qed.

Lemma attempts_snoc obj kwargs pre t :
  attempts obj kwargs (pre ++ [t]) =
    attempts obj kwargs pre ++ [LoadCall obj t kwargs].
Proof. unfold attempts. by rewrite map_app. Qed.

(** When every candidate fails with a [JsonsError], every candidate has
    been attempted, in order, and a [DeserializationError] carrying the
    message of the [else] branch, the input and the union is raised. *)
Lemma union_exhausted obj cls kwargs fork_inst :
  Forall (conversion_fails load obj kwargs) (get_union_params cls) →
  kwargs !! "fork_inst" = Some fork_inst →
  default_union_deserializer load obj cls kwargs =
    (attempts obj kwargs (get_union_params cls),
     Raise (DeserializationError (err_msg cls fork_inst) obj cls)).
Proof.
  intros Hall Hfork. unfold default_union_deserializer.
  rewrite <- (app_nil_r (get_union_params cls)) at 1.
  rewrite for_sub_type_skip by done. simpl.
  unfold orelse, getitem. rewrite Hfork, bind_ret_l. simpl.
  by rewrite app_nil_r.
Qed.

(** The message names every member of [cls.__args__]. *)
Lemma err_msg_names_every_arg cls fork_inst t :
  t ∈ __args__ cls →
  occurs (get_class_name t fork_inst) (err_msg cls fork_inst) = true.
Proof.
  intros Hin. unfold err_msg.
  do 5 apply occurs_append_r. apply occurs_join.
  apply list_elem_of_fmap. by exists t.
Qed.

(** Where [get_union_params] returns [cls.__args__], the message names
    every candidate that was attempted. *)
Lemma err_msg_names_every_candidate cls fork_inst t :
  get_union_params cls = __args__ cls →
  t ∈ get_union_params cls →
  occurs (get_class_name t fork_inst) (err_msg cls fork_inst) = true.
Proof. intros ->. apply err_msg_names_every_arg. Qed.

(** Without a [fork_inst] among the keyword arguments the [else] branch
    stops at [kwargs['fork_inst']]. *)
Lemma union_exhausted_without_fork obj cls kwargs :
  Forall (conversion_fails load obj kwargs) (get_union_params cls) →
  kwargs !! "fork_inst" = None →
  default_union_deserializer load obj cls kwargs =
    (attempts obj kwargs (get_union_params cls), Raise (KeyError "fork_inst")).
Proof.
  intros Hall Hfork. unfold default_union_deserializer.
  rewrite <- (app_nil_r (get_union_params cls)) at 1.
  rewrite for_sub_type_skip by done. simpl.
  unfold orelse, getitem. rewrite Hfork, bind_raise_l. simpl.
  by rewrite app_nil_r.
Qed.

(** Claim C1, amended: when the candidates before [t] all fail with an
    exception of the [JsonsError] family and [load] succeeds on [t], the
    deserializer returns what [load] returns on [t]; the candidates up to
    [t] are attempted in order and none after [t] is. *)
Theorem union_first_success obj cls kwargs pre t post v :
  get_union_params cls = pre ++ t :: post →
  Forall (conversion_fails load obj kwargs) pre →
  load obj t kwargs = Ok v →
  default_union_deserializer load obj cls kwargs =
    (attempts obj kwargs (pre ++ [t]), Ok v).
Proof.
  intros Hparams Hpre Hl. unfold default_union_deserializer.
  rewrite Hparams, for_sub_type_skip by done.
  rewrite (for_sub_type_head_ok _ _ _ _ _ _ Hl). simpl.
  by rewrite attempts_snoc.
Qed.

(** Claim C3: a [JsonsError] raised by [load] makes the deserializer go on
    to the next candidate; the first exception of any other kind is
    raised to the caller as it is, and no later candidate is attempted. *)
Theorem union_other_failure_propagates obj cls kwargs pre t post e :
  get_union_params cls = pre ++ t :: post →
  Forall (conversion_fails load obj kwargs) pre →
  load obj t kwargs = Raise e →
  is_JsonsError e = false →
  default_union_deserializer load obj cls kwargs =
    (attempts obj kwargs (pre ++ [t]), Raise e).
Proof.
  intros Hparams Hpre Hl He. unfold default_union_deserializer.
  rewrite Hparams, for_sub_type_skip by done.
  rewrite (for_sub_type_head_other _ _ _ _ _ _ Hl He). simpl.
  by rewrite attempts_snoc.
Qed.
End UnionFacts.

(** *** Runs of the union deserializer *)

Import Example.

(** [Union[int, str]] on ["5"]: [int] fails with a [JsonsError], [str]
    succeeds. *)
Lemma union_first_success_witness :
  DefaultUnion.default_union_deserializer ex_load (OStr "5")
    (TUnion [TInt; TStr]) fork_kwargs =
  (DefaultUnion.attempts (OStr "5") fork_kwargs ([TInt] ++ [TStr]),
   Ok (OStr "5")).
Proof.
  apply (union_first_success ex_load (OStr "5") (TUnion [TInt; TStr])
           fork_kwargs [TInt] TStr [] (OStr "5")).
  - reflexivity.
  - constructor; [|constructor].
    exists (DeserializationError "Invalid type" (OStr "5") TInt).
    split; reflexivity.
  - reflexivity.
Defined.

(** Claim C1 as stated fails on [Union[Point, str]] and ["5"]: [load]
    succeeds on [str] and on no earlier candidate, so [str] is the
    lowest-indexed candidate on which it succeeds; but [load] on [Point]
    raises a [TypeError], which is not a [JsonsError], and the deserializer
    raises it instead of returning what [load] returns on [str]. *)
Lemma union_first_success_counterexample :
  get_union_params (TUnion [TClass "Point"; TStr]) = [TClass "Point"; TStr]
  ∧ ex_load (OStr "5") (TClass "Point") fork_kwargs
    = Raise (Raised false "TypeError")
  ∧ ex_load (OStr "5") TStr fork_kwargs = Ok (OStr "5")
  ∧ DefaultUnion.default_union_deserializer ex_load (OStr "5")
      (TUnion [TClass "Point"; TStr]) fork_kwargs
    = ([DefaultUnion.LoadCall (OStr "5") (TClass "Point") fork_kwargs],
       Raise (Raised false "TypeError"))
  ∧ outcome (DefaultUnion.default_union_deserializer ex_load (OStr "5")
      (TUnion [TClass "Point"; TStr]) fork_kwargs)
    ≠ ex_load (OStr "5") TStr fork_kwargs.
Proof. repeat split; try reflexivity. discriminate. Qed.

(** [Union[int, Point, str]] on ["5"]: [int] fails with a [JsonsError],
    [Point] with a [TypeError]; [str] is not attempted. *)
Lemma union_other_failure_propagates_witness :
  DefaultUnion.default_union_deserializer ex_load (OStr "5")
    (TUnion [TInt; TClass "Point"; TStr]) fork_kwargs =
  (DefaultUnion.attempts (OStr "5") fork_kwargs ([TInt] ++ [TClass "Point"]),
   Raise (Raised false "TypeError")).
Proof.
  apply (union_other_failure_propagates ex_load (OStr "5")
           (TUnion [TInt; TClass "Point"; TStr]) fork_kwargs
           [TInt] (TClass "Point") [TStr] (Raised false "TypeError")).
  - reflexivity.
  - constructor; [|constructor].
    exists (DeserializationError "Invalid type" (OStr "5") TInt).
    split; reflexivity.
  - reflexivity.
  - reflexivity.
Defined.

(** Claim C2, at [Union[int, bool]] and ["hello"]: both candidates fail with
    a [JsonsError] and a [DeserializationError] is raised whose message
    names [int] and [bool]; but the type it reports for the object is the
    union itself, [str(cls)], and the type of the object, [str], occurs
    nowhere in the message. *)
Theorem union_error_reports_union_as_object_type :
  DefaultUnion.default_union_deserializer ex_load (OStr "hello")
    (TUnion [TInt; TBool]) fork_kwargs
  = ([DefaultUnion.LoadCall (OStr "hello") TInt fork_kwargs;
      DefaultUnion.LoadCall (OStr "hello") TBool fork_kwargs],
     Raise (DeserializationError
              ("Could not match the object of type " +:+ dquote
               +:+ "typing.Union[int, bool]" +:+ dquote
               +:+ " to any type of the Union: int, bool")
              (OStr "hello") (TUnion [TInt; TBool])))
  ∧ occurs (get_class_name (type_of (OStr "hello")) OFork)
      (DefaultUnion.err_msg (TUnion [TInt; TBool]) OFork) = false
  ∧ occurs (str (type_of (OStr "hello")))
      (DefaultUnion.err_msg (TUnion [TInt; TBool]) OFork) = false
  ∧ occurs (str (TUnion [TInt; TBool]))
      (DefaultUnion.err_msg (TUnion [TInt; TBool]) OFork) = true.
Proof. repeat split; vm_compute; reflexivity. Qed.

(** ** The call adapter *)

Section DecoratorFacts.
Context `{Python}.
Import Decorators.

Implicit Types (decorated : callable) (mapper : mapper_t).
Implicit Types (fork_inst : value) (args : list value).
Implicit Types (kwargs mapper_kwargs : kwargs_t).
Implicit Types (suspending parameters returnvalue : bool).

(** *** Pairing arguments with parameters *)

Lemma find_by_name (params : list Param) i p :
  NoDup (map name params) → params !! i = Some p →
  find (λ q, bool_decide (name q = name p)) params = Some p.
Proof.
  revert i. induction params as [|q params IH]; intros i Hnd Hi; [done|].
  simpl in Hnd. apply NoDup_cons in Hnd as [Hq Hnd]. simpl.
  destruct i as [|i]; simpl in Hi.
  - injection Hi as ->. by rewrite bool_decide_eq_true_2.
  - rewrite bool_decide_eq_false_2; [by eapply IH|].
    intros Heq. apply Hq. rewrite Heq.
    apply list_elem_of_fmap. exists p. split; [done|].
    by eapply list_elem_of_lookup_2.
Qed.

Lemma find_by_name_is_Some (params : list Param) i p :
  params !! i = Some p →
  is_Some (find (λ q, bool_decide (name q = name p)) params).
Proof.
  intros Hi.
  destruct (find (λ q, bool_decide (name q = name p)) params) eqn:Hf; [done|].
  apply find_none with (x := p) in Hf.
  - by rewrite bool_decide_eq_true_2 in Hf.
  - apply list_elem_of_In. by eapply list_elem_of_lookup_2.
Qed.

Lemma comprehension_ok {A B} (f : A → traced event B) xs ys :
  Forall2 (λ x y, f x = ret y) xs ys → comprehension f xs = ret ys.
Proof.
  induction 1 as [|x y xs ys Hx _ IH]; [done|].
  simpl. by rewrite Hx, bind_ret_l, IH, bind_ret_l.
Qed.

Lemma comprehension_raise {A B} (f : A → traced event B) xs y zs e :
  Forall (λ x, ∃ b, f x = ret b) xs → f y = raise e →
  comprehension f (xs ++ y :: zs) = raise e.
Proof.
  intros Hxs Hy. induction Hxs as [|x xs [b Hx] _ IH]; simpl.
  - by rewrite Hy.
  - by rewrite Hx, bind_ret_l, IH.
Qed.

Lemma _get_params_sig_ok args func :
  NoDup (map name (parameters (__signature__ func))) →
  length args ≤ length (parameters (__signature__ func)) →
  _get_params_sig args func =
    ([SignatureCall func], Ok (zip args (parameters (__signature__ func)))).
Proof.
  intros Hnd Hlen. unfold _get_params_sig, signature.
  rewrite bind_assoc, bind_emit, bind_ret_l. simpl.
  erewrite comprehension_ok; [done|].
  apply Forall2_same_length_lookup. split.
  - rewrite length_seq, length_zip. lia.
  - intros i j [arg p] Hj Hz. apply lookup_seq in Hj as [-> _]. simpl.
    apply lookup_zip_with_Some in Hz as (a' & p' & [= -> ->] & Ha & Hp).
    rewrite (index_Some _ _ _ Ha), bind_ret_l.
    rewrite (index_Some _ i (name p')), bind_ret_l
      by (by rewrite lookup_map, Hp).
    unfold params_getitem. rewrite (find_by_name _ i) by done.
    by rewrite bind_ret_l.
Qed.

Lemma _get_params_sig_overflow args func :
  length (parameters (__signature__ func)) < length args →
  _get_params_sig args func = ([SignatureCall func], Raise IndexError).
Proof.
  intros Hlen. unfold _get_params_sig, signature.
  rewrite bind_assoc, bind_emit, bind_ret_l. simpl.
  set (params := parameters (__signature__ func)) in *.
  replace (length args)
    with (length params + S (length args - S (length params))) by lia.
  rewrite seq_app. simpl.
  erewrite comprehension_raise; [done| |].
  - apply Forall_forall. intros i Hi.
    apply elem_of_seq in Hi as [_ Hi]. simpl in Hi.
    destruct (lookup_lt_is_Some_2 args i) as [arg Harg]; [lia|].
    destruct (lookup_lt_is_Some_2 params i) as [p Hp]; [lia|].
    destruct (find_by_name_is_Some params i p Hp) as [p' Hp'].
    exists (arg, p'). rewrite (index_Some _ _ _ Harg), bind_ret_l.
    rewrite (index_Some _ i (name p)), bind_ret_l
      by (by rewrite lookup_map, Hp).
    unfold params_getitem. by rewrite Hp', bind_ret_l.
  - destruct (lookup_lt_is_Some_2 args (length params)) as [arg Harg]; [lia|].
    rewrite (index_Some _ _ _ Harg), bind_ret_l.
    rewrite index_None, bind_raise_l; [done|].
    rewrite lookup_map, (lookup_ge_None_2 params); [done|lia].
Qed.

(** *** The loop of [_map_args] *)

Lemma for_arg_sig_spec pairs decorated fork_inst mapper mapper_kwargs acc :
  (∃ k, events (for_arg_sig pairs decorated fork_inst mapper mapper_kwargs acc)
        = take k (conversions decorated fork_inst mapper_kwargs pairs))
  ∧ (∀ out,
       outcome (for_arg_sig pairs decorated fork_inst mapper mapper_kwargs acc)
         = Ok out ↔
       ∃ vs, out = acc ++ vs
             ∧ Forall2 (forwarded decorated fork_inst mapper mapper_kwargs)
                 pairs vs)
  ∧ (∀ out,
       outcome (for_arg_sig pairs decorated fork_inst mapper mapper_kwargs acc)
         = Ok out →
       events (for_arg_sig pairs decorated fork_inst mapper mapper_kwargs acc)
         = conversions decorated fork_inst mapper_kwargs pairs).
Proof.
  revert acc. induction pairs as [|[arg sig] pairs IH]; intros acc.
  { split; [by exists 0|]. split; [|done]. intros out; split.
    - intros [= <-]. exists []. by rewrite app_nil_r.
    - intros (vs & -> & ->%Forall2_nil_inv_l). by rewrite app_nil_r. }
  cbn [for_arg_sig conversions flat_map].
  unfold forwarded at 1. cbn [fst snd].
  destruct (is_receiver decorated arg sig) eqn:Hrecv.
  - rewrite bind_ret_l. destruct (IH (acc ++ [arg])) as (Hev & Hiff & Hfull).
    split; [done|]. split; [|done].
    intros out. rewrite Hiff. split.
    + intros (vs & -> & HF). exists (arg :: vs). rewrite <- app_assoc.
      split; [done|]. constructor; [|done].
      unfold forwarded; cbn [fst snd]. by rewrite Hrecv.
    + intros (vs & -> & HF). apply Forall2_cons_inv_l in HF
        as (v & vs' & Hv & HF & ->).
      unfold forwarded in Hv; cbn [fst snd] in Hv. rewrite Hrecv in Hv.
      subst v. exists vs'. by rewrite <- app_assoc.
  - unfold call_mapper. rewrite bind_emit. cbn [lift fst snd].
    destruct (mapper arg (cls_of (annotation sig)) fork_inst mapper_kwargs)
      as [v|e] eqn:Hmap.
    + rewrite bind_ok. cbn [app].
      destruct (IH (acc ++ [v])) as ([k Hev] & Hiff & Hfull).
      unfold events, outcome in *. cbn [fst snd]. split; [|split].
      * exists (S k). cbn [take]. by rewrite Hev.
      * intros out. rewrite Hiff. split.
        -- intros (vs & -> & HF). exists (v :: vs). rewrite <- app_assoc.
           split; [done|]. constructor; [|done].
           unfold forwarded; cbn [fst snd]. by rewrite Hrecv.
        -- intros (vs & -> & HF). apply Forall2_cons_inv_l in HF
             as (v' & vs' & Hv & HF & ->).
           unfold forwarded in Hv; cbn [fst snd] in Hv.
           rewrite Hrecv, Hmap in Hv. injection Hv as <-.
           exists vs'. by rewrite <- app_assoc.
      * intros out Hout. by rewrite (Hfull out Hout).
    + rewrite bind_raise. unfold events, outcome. cbn [fst snd].
      split; [by exists 1; destruct (conversions _ _ _ pairs)|].
      split; [|done]. intros out; split; [done|].
      intros (vs & -> & HF). apply Forall2_cons_inv_l in HF
        as (v' & vs' & Hv & HF & ->).
      unfold forwarded in Hv; cbn [fst snd] in Hv.
      by rewrite Hrecv, Hmap in Hv.
Qed.


(** *** The shape of the traces *)

Lemma comprehension_events {A B} (f : A → traced event B) xs :
  (∀ x, events (f x) = []) → events (comprehension f xs) = [].
Proof.
  intros Hf. induction xs as [|x xs IH]; [done|].
  cbn [comprehension]. rewrite events_bind, Hf.
  destruct (outcome (f x)); [|done].
  rewrite events_bind, IH. by destruct (outcome (comprehension f xs)).
Qed.

Lemma comprehension_outcome {A B} (f : A → traced event B) xs ys :
  outcome (comprehension f xs) = Ok ys →
  Forall2 (λ x y, outcome (f x) = Ok y) xs ys.
Proof.
  revert ys. induction xs as [|x xs IH]; intros ys; cbn [comprehension].
  { by intros [= <-]. }
  destruct (f x) as [tr [y|e]] eqn:Hx; [|done].
  rewrite bind_ok. cbn [outcome snd].
  destruct (comprehension f xs) as [tr' [ys'|e]] eqn:Hxs; [|done].
  rewrite bind_ok. cbn [snd ret]. intros [= <-].
  constructor; [by rewrite Hx|]. by apply IH.
Qed.

Lemma conversions_elem decorated fork_inst mapper_kwargs pairs ev :
  ev ∈ conversions decorated fork_inst mapper_kwargs pairs →
  ∃ arg sig, (arg, sig) ∈ pairs ∧ is_receiver decorated arg sig = false
             ∧ ev = MapperCall arg (cls_of (annotation sig)) fork_inst
                      mapper_kwargs.
Proof.
  unfold conversions. intros Hin%list_elem_of_In.
  apply in_flat_map in Hin as ([arg sig] & Hp & Hev).
  destruct (is_receiver decorated arg sig) eqn:Hrecv; [done|].
  destruct Hev as [<-|[]]. exists arg, sig.
  by rewrite list_elem_of_In.
Qed.

(** Whatever the arguments, [_map_args] inspects the signature first and
    after that only calls the port, on positional arguments. *)
Lemma _map_args_events args decorated fork_inst mapper mapper_kwargs :
  ∃ tr, events (_map_args args decorated fork_inst mapper mapper_kwargs)
        = SignatureCall decorated :: tr
        ∧ Forall (λ ev, ∃ arg cls, arg ∈ args
                        ∧ ev = MapperCall arg cls fork_inst mapper_kwargs) tr.
Proof.
  unfold _map_args, _get_params_sig, signature.
  rewrite !bind_assoc, bind_emit, bind_ret_l. cbn [fst snd].
  set (f := λ i : nat, _). set (c := comprehension f _).
  assert (events c = []) as Hc.
  { apply comprehension_events. intros i. unfold f, index, params_getitem.
    destruct (args !! i); [|done]. rewrite bind_ret_l.
    destruct (map name _ !! i); [|done]. rewrite bind_ret_l.
    by destruct (find _ _). }
  pose proof (comprehension_outcome f (seq 0 (length args))) as Hout.
  fold c in Hout. destruct c as [trc [pairs|e]]; unfold events in Hc;
    cbn [fst] in Hc; subst trc.
  2:{ exists []. by rewrite bind_raise. }
  rewrite bind_ok. cbn [app].
  destruct (for_arg_sig_spec pairs decorated fork_inst mapper mapper_kwargs [])
    as ([k Hev] & _ & _).
  unfold events in *. cbn [fst]. eexists; split; [done|]. rewrite Hev.
  apply Forall_forall. intros ev Hin%elem_of_take.
  destruct Hin as (j & Hj & _). apply list_elem_of_lookup_2 in Hj.
  apply conversions_elem in Hj as (arg & sig & Hp & _ & ->).
  exists arg, (cls_of (annotation sig)). split; [|done].
  specialize (Hout pairs eq_refl).
  apply list_elem_of_lookup_1 in Hp as [i Hi].
  destruct (Forall2_lookup_r _ _ _ _ _ Hout Hi) as (n & _ & Hn).
  revert Hn. unfold f, index, params_getitem.
  destruct (args !! n) as [a|] eqn:Ha; [|done]. rewrite bind_ret_l.
  destruct (map name _ !! n); [|done]. rewrite bind_ret_l.
  destruct (find _ _); [|done]. rewrite bind_ret_l.
  intros [= -> _]. by eapply list_elem_of_lookup_2.
Qed.

Lemma _run_decorated_None decorated fork_inst args kwargs mapper_kwargs :
  _run_decorated decorated None fork_inst args kwargs mapper_kwargs =
    ([DecoratedCall decorated args kwargs], __call__ decorated args kwargs).
Proof. unfold _run_decorated. by rewrite bind_ret_l. Qed.

Lemma _run_decorated_Some decorated mapper fork_inst args kwargs
    mapper_kwargs :
  _run_decorated decorated (Some mapper) fork_inst args kwargs mapper_kwargs =
    match _map_args args decorated fork_inst mapper mapper_kwargs with
    | (tr, Ok new_args) =>
        (tr ++ [DecoratedCall decorated new_args kwargs],
         __call__ decorated new_args kwargs)
    | (tr, Raise e) => (tr, Raise e)
    end.
Proof.
  unfold _run_decorated.
  by destruct (_map_args _ _ _ _ _) as [tr [new_args|e]].
Qed.

Lemma _run_decorated_arg_step parameters decorated mapper fork_inst args
    kwargs mapper_kwargs :
  _run_decorated decorated (if parameters then Some mapper else None)
    fork_inst args kwargs mapper_kwargs =
  (new_args <- arg_step parameters decorated fork_inst mapper args
                 mapper_kwargs ;;
   call_decorated decorated new_args kwargs).
Proof. by destruct parameters. Qed.

Lemma arg_step_events parameters decorated fork_inst mapper args
    mapper_kwargs :
  Forall (λ ev, ev = SignatureCall decorated
                ∨ ∃ arg cls, arg ∈ args
                    ∧ ev = MapperCall arg cls fork_inst mapper_kwargs)
    (events (arg_step parameters decorated fork_inst mapper args
               mapper_kwargs)).
Proof.
  destruct parameters; [|by constructor]. cbn [arg_step].
  destruct (_map_args_events args decorated fork_inst mapper mapper_kwargs)
    as (tr & -> & Htr).
  constructor; [by left|]. eapply Forall_impl; [done|].
  intros ev (arg & cls & Harg & ->). right. by exists arg, cls.
Qed.

Lemma _run_decorated_events parameters decorated mapper fork_inst args
    kwargs mapper_kwargs :
  events (_run_decorated decorated (if parameters then Some mapper else None)
            fork_inst args kwargs mapper_kwargs) =
  events (arg_step parameters decorated fork_inst mapper args mapper_kwargs)
  ++ match outcome (arg_step parameters decorated fork_inst mapper args
                      mapper_kwargs) with
     | Ok new_args => [DecoratedCall decorated new_args kwargs]
     | Raise _ => []
     end.
Proof.
  rewrite _run_decorated_arg_step, events_bind.
  by destruct (outcome _).
Qed.

(** The return-value step shared by the two wrappers. *)
Lemma _map_returnvalue_eq result decorated fork_inst mapper mapper_kwargs :
  _map_returnvalue result decorated fork_inst mapper mapper_kwargs =
    ([SignatureCall decorated;
      MapperCall result (cls_of (return_annotation (__signature__ decorated)))
        fork_inst mapper_kwargs],
     mapper result (cls_of (return_annotation (__signature__ decorated)))
       fork_inst mapper_kwargs).
Proof.
  unfold _map_returnvalue, signature, call_mapper.
  by rewrite bind_assoc, bind_emit, bind_ret_l, bind_emit.
Qed.

Lemma _wrapper_false parameters fork_inst mapper mapper_kwargs decorated
    args kwargs :
  _wrapper parameters false fork_inst mapper mapper_kwargs decorated args
    kwargs =
  _run_decorated decorated (if parameters then Some mapper else None)
    fork_inst args kwargs mapper_kwargs.
Proof. unfold _wrapper. apply bind_ret_r. Qed.

Lemma _wrapper_events parameters returnvalue fork_inst mapper mapper_kwargs
    decorated args kwargs :
  events (_wrapper parameters returnvalue fork_inst mapper mapper_kwargs
            decorated args kwargs) =
  events (_wrapper parameters false fork_inst mapper mapper_kwargs
            decorated args kwargs)
  ++ match outcome (_wrapper parameters false fork_inst mapper mapper_kwargs
                      decorated args kwargs) with
     | Ok result =>
         if returnvalue
         then [SignatureCall decorated;
               MapperCall result
                 (cls_of (return_annotation (__signature__ decorated)))
                 fork_inst mapper_kwargs]
         else []
     | Raise _ => []
     end.
Proof.
  rewrite _wrapper_false. unfold _wrapper. rewrite events_bind.
  destruct (outcome _) as [result|e]; [|done].
  destruct returnvalue; [|done]. by rewrite _map_returnvalue_eq.
Qed.

Lemma _async_wrapper_false parameters fork_inst mapper mapper_kwargs
    decorated args kwargs :
  _async_wrapper parameters false fork_inst mapper mapper_kwargs decorated
    args kwargs =
  (result <- _run_decorated decorated
               (if parameters then Some mapper else None)
               fork_inst args kwargs mapper_kwargs ;;
   if isawaitable result then call_await result else ret result).
Proof.
  unfold _async_wrapper.
  destruct (_run_decorated decorated _ fork_inst args kwargs mapper_kwargs)
    as [tr [result|e]]; [|done].
  rewrite !bind_ok. cbv iota. by rewrite bind_ret_r.
Qed.

Lemma _async_wrapper_events parameters returnvalue fork_inst mapper
    mapper_kwargs decorated args kwargs :
  events (_async_wrapper parameters returnvalue fork_inst mapper
            mapper_kwargs decorated args kwargs) =
  events (_async_wrapper parameters false fork_inst mapper mapper_kwargs
            decorated args kwargs)
  ++ match outcome (_async_wrapper parameters false fork_inst mapper
                      mapper_kwargs decorated args kwargs) with
     | Ok result =>
         if returnvalue
         then [SignatureCall decorated;
               MapperCall result
                 (cls_of (return_annotation (__signature__ decorated)))
                 fork_inst mapper_kwargs]
         else []
     | Raise _ => []
     end.
Proof.
  rewrite _async_wrapper_false. unfold _async_wrapper.
  rewrite <- bind_assoc, events_bind.
  destruct (outcome _) as [result|e]; [|done].
  destruct returnvalue; [|done]. by rewrite _map_returnvalue_eq.
Qed.

Lemma _async_wrapper_false_events parameters fork_inst mapper mapper_kwargs
    decorated args kwargs :
  events (_async_wrapper parameters false fork_inst mapper mapper_kwargs
            decorated args kwargs) =
  events (_run_decorated decorated (if parameters then Some mapper else None)
            fork_inst args kwargs mapper_kwargs)
  ++ match outcome (_run_decorated decorated
                      (if parameters then Some mapper else None)
                      fork_inst args kwargs mapper_kwargs) with
     | Ok result => if isawaitable result then [AwaitCall result] else []
     | Raise _ => []
     end.
Proof.
  rewrite _async_wrapper_false, events_bind.
  destruct (outcome _) as [result|e]; [|done].
  by destruct (isawaitable result).
Qed.

(** *** The two flags *)

(** Claim C5: with [parameters] false the wrapped callable is called on
    the positional arguments as they were supplied, and nothing is done
    before that call; once the wrapped callable has returned [raw], the
    wrapper with [returnvalue] true calls the port on [raw] with the class
    of the return annotation ([None] when there is no annotation) and
    returns what the port returns, and the wrapper with [returnvalue]
    false returns [raw]. *)
Theorem adaptation_flags parameters fork_inst mapper mapper_kwargs decorated
    args kwargs :
  (∀ returnvalue,
     _run_decorated decorated (if false then Some mapper else None)
       fork_inst args kwargs mapper_kwargs
     = ([DecoratedCall decorated args kwargs],
        __call__ decorated args kwargs)
     ∧ ∃ tr, events (_wrapper false returnvalue fork_inst mapper
                       mapper_kwargs decorated args kwargs)
             = DecoratedCall decorated args kwargs :: tr)
  ∧ (∀ tr raw,
       _run_decorated decorated (if parameters then Some mapper else None)
         fork_inst args kwargs mapper_kwargs = (tr, Ok raw) →
       _wrapper parameters true fork_inst mapper mapper_kwargs decorated
         args kwargs
       = (tr ++ [SignatureCall decorated;
                 MapperCall raw
                   (cls_of (return_annotation (__signature__ decorated)))
                   fork_inst mapper_kwargs],
          mapper raw (cls_of (return_annotation (__signature__ decorated)))
            fork_inst mapper_kwargs)
       ∧ _wrapper parameters false fork_inst mapper mapper_kwargs decorated
           args kwargs
         = (tr, Ok raw))
  ∧ (return_annotation (__signature__ decorated) = Parameter_empty →
     cls_of (return_annotation (__signature__ decorated)) = None).
Proof.
  split; [|split].
  - intros returnvalue. split; [apply _run_decorated_None|].
    rewrite _wrapper_events, _wrapper_false.
    change (if false then Some mapper else None) with (@None mapper_t).
    rewrite _run_decorated_None. by eexists.
  - intros tr raw Hrun. split.
    + unfold _wrapper. by rewrite Hrun, bind_ok, _map_returnvalue_eq.
    + by rewrite _wrapper_false.
  - by intros ->.
Qed.

(** *** Keyword arguments *)

Lemma _run_decorated_calls parameters decorated mapper fork_inst args kwargs
    mapper_kwargs :
  Forall (λ ev, ev = SignatureCall decorated
                ∨ (∃ arg cls, arg ∈ args
                     ∧ ev = MapperCall arg cls fork_inst mapper_kwargs)
                ∨ ∃ new_args, ev = DecoratedCall decorated new_args kwargs)
    (events (_run_decorated decorated
               (if parameters then Some mapper else None)
               fork_inst args kwargs mapper_kwargs)).
Proof.
  rewrite _run_decorated_events. apply Forall_app. split.
  - eapply Forall_impl; [apply arg_step_events|]. intros ev [?|?]; eauto.
  - destruct (outcome _) as [new_args|e]; [|by constructor].
    constructor; [|by constructor]. right; right. by exists new_args.
Qed.

Lemma wrapper_run_events suspending parameters returnvalue fork_inst
    mapper mapper_kwargs decorated args kwargs :
  events (wrapper_run suspending parameters returnvalue fork_inst mapper
            mapper_kwargs decorated args kwargs) =
  events (wrapper_run suspending parameters false fork_inst mapper
            mapper_kwargs decorated args kwargs)
  ++ match outcome (wrapper_run suspending parameters false fork_inst mapper
                      mapper_kwargs decorated args kwargs) with
     | Ok result =>
         if returnvalue
         then [SignatureCall decorated;
               MapperCall result
                 (cls_of (return_annotation (__signature__ decorated)))
                 fork_inst mapper_kwargs]
         else []
     | Raise _ => []
     end.
Proof.
  destruct suspending; [apply _async_wrapper_events | apply _wrapper_events].
Qed.

Lemma wrapper_run_false_events suspending parameters fork_inst mapper
    mapper_kwargs decorated args kwargs :
  ∃ tr, events (wrapper_run suspending parameters false fork_inst mapper
                  mapper_kwargs decorated args kwargs) =
        events (_run_decorated decorated
                  (if parameters then Some mapper else None)
                  fork_inst args kwargs mapper_kwargs) ++ tr
        ∧ Forall (λ ev, ∃ aw, ev = AwaitCall aw) tr.
Proof.
  destruct suspending; cbn [wrapper_run].
  - rewrite _async_wrapper_false_events. eexists; split; [done|].
    destruct (outcome _) as [r|e]; [|by constructor].
    destruct (isawaitable r); constructor; [|by constructor]. by exists r.
  - rewrite _wrapper_false. exists []. by rewrite app_nil_r.
Qed.

Lemma wrapper_events_classified suspending parameters returnvalue
    fork_inst mapper mapper_kwargs decorated args kwargs :
  Forall
    (wrapper_event decorated fork_inst args kwargs mapper_kwargs
       (outcome (wrapper_run suspending parameters false fork_inst mapper
                   mapper_kwargs decorated args kwargs)))
    (events (wrapper_run suspending parameters returnvalue fork_inst mapper
               mapper_kwargs decorated args kwargs)).
Proof.
  rewrite wrapper_run_events.
  destruct (wrapper_run_false_events suspending parameters fork_inst mapper
              mapper_kwargs decorated args kwargs) as (tr & -> & Htr).
  unfold wrapper_event. repeat apply Forall_app_2.
  - eapply Forall_impl; [apply _run_decorated_calls|].
    intros ev [?|[?|?]]; eauto.
  - eapply Forall_impl; [exact Htr|]. intros ev ?; eauto 6.
  - destruct (outcome _) as [result|e]; [|by constructor].
    destruct returnvalue; [|by constructor].
    constructor; [by left|]. constructor; [|by constructor].
    do 4 right. by eexists _, _.
Qed.


(** *** The validity guard and the choice of the wrapper *)

Lemma staticmethod_rejected parameters returnvalue fork_inst mapper
    mapper_kwargs decorated :
  kind decorated = StaticmethodObj →
  outcome (_decorator parameters returnvalue fork_inst mapper mapper_kwargs
             decorated)
  = Raise (Exception "Cannot decorate a static- or classmethod.").
Proof.
  intros Hk. unfold _decorator, isinstance_staticmethod. by rewrite Hk.
Qed.

Lemma type_rejected parameters returnvalue fork_inst mapper mapper_kwargs
    decorated :
  kind decorated = TypeObj →
  _decorator parameters returnvalue fork_inst mapper mapper_kwargs decorated
  = ([], Raise (Exception "Cannot decorate a class.")).
Proof.
  intros Hk.
  unfold _decorator, isinstance_staticmethod, isinstance_type.
  by rewrite Hk.
Qed.

Lemma classmethod_accepted parameters returnvalue fork_inst mapper
    mapper_kwargs decorated :
  kind decorated = ClassmethodObj →
  _decorator parameters returnvalue fork_inst mapper mapper_kwargs decorated
  = ([], Ok (OrdinaryWrapper
               (_wrapper parameters returnvalue fork_inst mapper
                  mapper_kwargs decorated))).
Proof.
  intros Hk. unfold _decorator, isinstance_staticmethod, isinstance_type,
    iscoroutinefunction.
  by rewrite Hk.
Qed.


(** *** Introspection *)

Lemma introspections_app tr1 tr2 :
  introspections (tr1 ++ tr2) = introspections tr1 + introspections tr2.
Proof. unfold introspections. by rewrite List.filter_app, length_app. Qed.

Lemma introspections_none tr :
  Forall (λ ev, is_SignatureCall ev = false) tr → introspections tr = 0.
Proof.
  unfold introspections. induction 1 as [|ev tr Hev _ IH]; [done|].
  simpl. by rewrite Hev.
Qed.

Lemma introspections_arg_step parameters decorated fork_inst mapper args
    mapper_kwargs :
  introspections (events (arg_step parameters decorated fork_inst mapper
                            args mapper_kwargs))
  = Nat.b2n parameters.
Proof.
  destruct parameters; [|done]. cbn [arg_step Nat.b2n].
  destruct (_map_args_events args decorated fork_inst mapper mapper_kwargs)
    as (tr & -> & Htr).
  change (SignatureCall decorated :: tr)
    with ([SignatureCall decorated] ++ tr).
  rewrite introspections_app, (introspections_none tr); [done|].
  eapply Forall_impl; [done|]. by intros ev (arg & cls & _ & ->).
Qed.

(** Claim C9, amended: applying the decorator does not inspect the
    signature of the wrapped callable.  A run of either wrapper inspects
    it once in the argument step when [parameters] is true, and once more
    in the return-value step when [returnvalue] is true and the wrapped
    callable (and the await, for the suspending wrapper) returned. *)
Theorem introspection_on_every_invocation suspending parameters returnvalue
    fork_inst mapper mapper_kwargs decorated args kwargs :
  introspections
    (events (_decorator parameters returnvalue fork_inst mapper
               mapper_kwargs decorated)) = 0
  ∧ introspections
      (events (wrapper_run suspending parameters returnvalue fork_inst
                 mapper mapper_kwargs decorated args kwargs))
    = Nat.b2n parameters
      + match outcome (wrapper_run suspending parameters false fork_inst
                         mapper mapper_kwargs decorated args kwargs) with
        | Ok _ => Nat.b2n returnvalue
        | Raise _ => 0
        end.
Proof.
  split.
  - unfold _decorator.
    destruct (isinstance_staticmethod decorated); [done|].
    by destruct (isinstance_type decorated).
  - rewrite wrapper_run_events.
    destruct (wrapper_run_false_events suspending parameters fork_inst mapper
                mapper_kwargs decorated args kwargs) as (tr & -> & Htr).
    rewrite _run_decorated_events, !introspections_app.
    rewrite introspections_arg_step, (introspections_none tr).
    2:{ eapply Forall_impl; [done|]. by intros ev [aw ->]. }
    destruct (outcome (arg_step _ _ _ _ _ _));
      destruct (outcome (wrapper_run _ _ _ _ _ _ _ _ _));
      destruct returnvalue; unfold introspections; simpl; lia.
Qed.

(** *** More arguments than parameters *)

Lemma wrapper_run_overflow suspending returnvalue fork_inst mapper
    mapper_kwargs decorated args kwargs :
  length (parameters (__signature__ decorated)) < length args →
  wrapper_run suspending true returnvalue fork_inst mapper mapper_kwargs
    decorated args kwargs
  = ([SignatureCall decorated], Raise IndexError).
Proof.
  intros Hlen.
  assert (_run_decorated decorated (Some mapper) fork_inst args kwargs
            mapper_kwargs = ([SignatureCall decorated], Raise IndexError))
    as Hrun.
  { rewrite _run_decorated_Some. unfold _map_args.
    by rewrite (_get_params_sig_overflow _ _ Hlen), bind_raise. }
  destruct suspending; cbn [wrapper_run];
    unfold _async_wrapper, _wrapper; by rewrite Hrun, !bind_raise.
Qed.

(** Claim C10: with [parameters] true, a call of either wrapper with more
    positional arguments than the wrapped callable has parameters raises
    [IndexError] right after the inspection of the signature, so that
    neither the port nor the wrapped callable is called; hence a wrapper
    that returns was given at most as many positional arguments as there
    are parameters. *)
Theorem too_many_positional_arguments suspending returnvalue fork_inst
    mapper mapper_kwargs decorated args kwargs :
  (length (parameters (__signature__ decorated)) < length args →
   wrapper_run suspending true returnvalue fork_inst mapper mapper_kwargs
     decorated args kwargs
   = ([SignatureCall decorated], Raise IndexError))
  ∧ (∀ v,
       outcome (wrapper_run suspending true returnvalue fork_inst mapper
                  mapper_kwargs decorated args kwargs) = Ok v →
       length args ≤ length (parameters (__signature__ decorated))).
Proof.
  split; [apply wrapper_run_overflow|].
  intros v Hout.
  destruct (decide (length args
                    ≤ length (parameters (__signature__ decorated))))
    as [|Hgt]; [done|].
  rewrite wrapper_run_overflow in Hout by lia. done.
Qed.
End DecoratorFacts.

(** *** Runs of the call adapter *)

Import Decorators.


(** The example of the docstring of [loaded]: the argument and the return
    value are both loaded as [datetime]. *)
Lemma adaptation_flags_witness :
  _wrapper true true OFork ex_mapper ∅ func [OStr "2018-10-04T21:57:00Z"] ∅
  = ([SignatureCall func;
      MapperCall (OStr "2018-10-04T21:57:00Z") (Some TDatetime) OFork ∅;
      DecoratedCall func [ODatetime "2018-10-04T21:57:00Z"] ∅]
     ++ [SignatureCall func;
         MapperCall (OStr "2018-10-04T21:57:00Z")
           (cls_of (return_annotation (__signature__ func))) OFork ∅],
     ex_mapper (OStr "2018-10-04T21:57:00Z")
       (cls_of (return_annotation (__signature__ func))) OFork ∅)
  ∧ _wrapper true false OFork ex_mapper ∅ func [OStr "2018-10-04T21:57:00Z"] ∅
    = ([SignatureCall func;
        MapperCall (OStr "2018-10-04T21:57:00Z") (Some TDatetime) OFork ∅;
        DecoratedCall func [ODatetime "2018-10-04T21:57:00Z"] ∅],
       Ok (OStr "2018-10-04T21:57:00Z")).
Proof.
  apply (proj1 (proj2 (adaptation_flags true OFork ex_mapper ∅ func
                         [OStr "2018-10-04T21:57:00Z"] ∅))).
  reflexivity.
Defined.


(** Claim C7, on [classmethod(make)]: the decorator raises nothing and
    returns the ordinary wrapper, although the object is a [classmethod]
    descriptor; the guard only tests for [staticmethod]. *)
Theorem classmethod_descriptor_is_wrapped :
  kind make_classmethod = ClassmethodObj
  ∧ isinstance_staticmethod make_classmethod = false
  ∧ _decorator true true OFork ex_mapper ∅ make_classmethod
    = ([], Ok (OrdinaryWrapper
                 (_wrapper true true OFork ex_mapper ∅ make_classmethod))).
Proof. repeat split. Qed.


(** Claim C9 as stated fails on [func]: applying the decorator inspects no
    signature, and one call of the wrapper it returns inspects the
    signature of [func] twice. *)
Lemma introspection_once_at_wrap_time_counterexample :
  _decorator true true OFork ex_mapper ∅ func
  = ([], Ok (OrdinaryWrapper (_wrapper true true OFork ex_mapper ∅ func)))
  ∧ introspections (events (_decorator true true OFork ex_mapper ∅ func)) = 0
  ∧ introspections
      (events (_wrapper true true OFork ex_mapper ∅ func
                 [OStr "2018-10-04T21:57:00Z"] ∅)) = 2.
Proof. repeat split. Qed.

(** [func] has one parameter and is called with two arguments. *)
Lemma too_many_positional_arguments_witness :
  wrapper_run false true true OFork ex_mapper ∅ func
    [OStr "2018-10-04T21:57:00Z"; OInt 1] ∅
  = ([SignatureCall func], Raise IndexError).
Proof.
  apply (proj1 (too_many_positional_arguments false true OFork ex_mapper ∅
                  func [OStr "2018-10-04T21:57:00Z"; OInt 1] ∅)).
  simpl. lia.
Defined.

(** * Further properties *)

(** ** The union deserializer: every run *)

Section UnionRuns.
Context `{Python}.
Import DefaultUnion.
Variable load : value → pytype → kwargs_t → result value.

Lemma orelse_events obj cls kwargs : events (orelse obj cls kwargs) = [].
Proof. unfold orelse, getitem. by destruct (kwargs !! "fork_inst"). Qed.

(** A run of the loop ends in one of three ways: at the first candidate
    that [load] accepts, at the first candidate on which [load] raises an
    exception that is not a [JsonsError], or in the [else] branch after
    every candidate failed with a [JsonsError]. *)
Lemma for_sub_type_inv sub_types obj cls kwargs :
  (∃ pre t post v,
     sub_types = pre ++ t :: post
     ∧ Forall (conversion_fails load obj kwargs) pre
     ∧ load obj t kwargs = Ok v
     ∧ for_sub_type load sub_types obj cls kwargs
       = (attempts obj kwargs (pre ++ [t]), Ok v))
  ∨ (∃ pre t post e,
       sub_types = pre ++ t :: post
       ∧ Forall (conversion_fails load obj kwargs) pre
       ∧ load obj t kwargs = Raise e ∧ is_JsonsError e = false
       ∧ for_sub_type load sub_types obj cls kwargs
         = (attempts obj kwargs (pre ++ [t]), Raise e))
  ∨ (Forall (conversion_fails load obj kwargs) sub_types
     ∧ for_sub_type load sub_types obj cls kwargs
       = (attempts obj kwargs sub_types, outcome (orelse obj cls kwargs))).
Proof.
  induction sub_types as [|t sub_types IH].
  { right; right. split; [constructor|]. cbn [for_sub_type attempts map].
    pose proof (orelse_events obj cls kwargs) as Hev.
    destruct (orelse obj cls kwargs) as [tr r].
    unfold events in Hev. cbn [fst] in Hev. by subst tr. }
  destruct (load obj t kwargs) as [v|e] eqn:Hl.
  { left. exists [], t, sub_types, v. split; [done|]. split; [constructor|].
    split; [done|]. by apply for_sub_type_head_ok. }
  destruct (is_JsonsError e) eqn:He.
  2:{ right; left. exists [], t, sub_types, e. split; [done|].
      split; [constructor|]. do 2 (split; [done|]).
      by apply for_sub_type_head_other. }
  assert (conversion_fails load obj kwargs t) as Hfail by by exists e.
  assert (Forall (conversion_fails load obj kwargs) [t]) as Hone
    by (by constructor).
  pose proof (for_sub_type_skip load [t] sub_types obj cls kwargs Hone) as Hskip.
  cbn [app] in Hskip.
  destruct IH as [(pre & u & post & v & -> & Hpre & Hu & Hrun)
                 |[(pre & u & post & e' & -> & Hpre & Hu & He' & Hrun)
                  |[Hall Hrun]]].
  - left. exists (t :: pre), u, post, v. split; [done|].
    split; [by constructor|]. split; [done|]. by rewrite Hskip, Hrun.
  - right; left. exists (t :: pre), u, post, e'. split; [done|].
    split; [by constructor|]. do 2 (split; [done|]). by rewrite Hskip, Hrun.
  - right; right. split; [by constructor|]. by rewrite Hskip, Hrun.
Qed.

Lemma orelse_outcome obj cls kwargs :
  outcome (orelse obj cls kwargs)
  = match kwargs !! "fork_inst" with
    | Some fork_inst =>
        Raise (DeserializationError (err_msg cls fork_inst) obj cls)
    | None => Raise (KeyError "fork_inst")
    end.
Proof. unfold orelse, getitem. by destruct (kwargs !! "fork_inst"). Qed.

Lemma occurs_str_err_msg cls fork_inst :
  occurs (str cls) (err_msg cls fork_inst) = true.
Proof.
  unfold err_msg. do 2 apply occurs_append_r.
  apply occurs_append_l, occurs_refl.
Qed.

(** X1: a value returned by the deserializer is what [load] returned for
    one of the candidates, every candidate before it failed with a
    [JsonsError], and the calls of [load] were exactly those on the
    candidates up to it. *)
Theorem union_value_comes_from_first_success obj cls kwargs v :
  outcome (default_union_deserializer load obj cls kwargs) = Ok v →
  ∃ pre t post,
    get_union_params cls = pre ++ t :: post
    ∧ Forall (conversion_fails load obj kwargs) pre
    ∧ load obj t kwargs = Ok v
    ∧ events (default_union_deserializer load obj cls kwargs)
      = attempts obj kwargs (pre ++ [t]).
Proof.
  unfold default_union_deserializer. intros Hout.
  destruct (for_sub_type_inv (get_union_params cls) obj cls kwargs)
    as [(pre & t & post & w & Heq & Hpre & Hl & Hrun)
       |[(pre & t & post & e & Heq & Hpre & Hl & He & Hrun)
        |[Hall Hrun]]];
    rewrite Hrun in Hout |- *; unfold outcome, events in *; cbn [fst snd] in *.
  - injection Hout as ->. by exists pre, t, post.
  - done.
  - fold (outcome (orelse obj cls kwargs)) in Hout.
    rewrite orelse_outcome in Hout. by destruct (kwargs !! "fork_inst").
Qed.

(** X2: whatever happens, the calls of [load] are on an initial segment of
    the list of candidates, in the order of [get_union_params], one call
    for each entry of the segment and always with the object and the
    keyword arguments the deserializer was given. *)
Theorem union_attempts_follow_declared_order obj cls kwargs :
  ∃ k, k ≤ length (get_union_params cls)
       ∧ events (default_union_deserializer load obj cls kwargs)
         = attempts obj kwargs (take k (get_union_params cls)).
Proof.
  unfold default_union_deserializer.
  destruct (for_sub_type_inv (get_union_params cls) obj cls kwargs)
    as [(pre & t & post & w & Heq & Hpre & Hl & Hrun)
       |[(pre & t & post & e & Heq & Hpre & Hl & He & Hrun)
        |[Hall Hrun]]];
    rewrite Hrun; unfold events; cbn [fst].
  1,2: exists (length (pre ++ [t])); rewrite Heq;
       rewrite (assoc_L (++) pre [t] post : pre ++ t :: post = (pre ++ [t]) ++ post);
       rewrite take_app_length; split; [rewrite !length_app; lia | done].
  exists (length (get_union_params cls)). by rewrite firstn_all.
Qed.

(** X3: when every candidate fails with a [JsonsError] and the keyword
    arguments hold a [fork_inst], every candidate has been attempted and a
    [DeserializationError] is raised that carries the object and the union;
    its message holds [str(cls)] and the class name of every member of
    [cls.__args__]. *)
Theorem union_exhaustion_error obj cls kwargs fork_inst :
  Forall (conversion_fails load obj kwargs) (get_union_params cls) →
  kwargs !! "fork_inst" = Some fork_inst →
  default_union_deserializer load obj cls kwargs
  = (attempts obj kwargs (get_union_params cls),
     Raise (DeserializationError (err_msg cls fork_inst) obj cls))
  ∧ occurs (str cls) (err_msg cls fork_inst) = true
  ∧ Forall (λ t, occurs (get_class_name t fork_inst) (err_msg cls fork_inst)
                 = true) (__args__ cls).
Proof.
  intros Hall Hfork. split; [by apply union_exhausted|].
  split; [apply occurs_str_err_msg|].
  apply Forall_forall. intros t Ht. by apply err_msg_names_every_arg.
Qed.

(** X5: an exception raised by the deserializer is either an exception
    that [load] raised on a candidate and that is not a [JsonsError], or
    the [DeserializationError] of the [else] branch, or the [KeyError] for
    a missing [fork_inst]; a [JsonsError] raised by [load] never reaches
    the caller. *)
Theorem union_error_origin obj cls kwargs e :
  outcome (default_union_deserializer load obj cls kwargs) = Raise e →
  (∃ t, t ∈ get_union_params cls ∧ load obj t kwargs = Raise e
        ∧ is_JsonsError e = false)
  ∨ (∃ fork_inst,
       kwargs !! "fork_inst" = Some fork_inst
       ∧ Forall (conversion_fails load obj kwargs) (get_union_params cls)
       ∧ e = DeserializationError (err_msg cls fork_inst) obj cls)
  ∨ (kwargs !! "fork_inst" = None
     ∧ Forall (conversion_fails load obj kwargs) (get_union_params cls)
     ∧ e = KeyError "fork_inst").
Proof.
  unfold default_union_deserializer. intros Hout.
  destruct (for_sub_type_inv (get_union_params cls) obj cls kwargs)
    as [(pre & t & post & w & Heq & Hpre & Hl & Hrun)
       |[(pre & t & post & e' & Heq & Hpre & Hl & He & Hrun)
        |[Hall Hrun]]];
    rewrite Hrun in Hout; unfold outcome in Hout; cbn [snd] in Hout.
  - done.
  - injection Hout as ->. left. exists t. split; [|done].
    rewrite Heq. apply elem_of_app. right. by left.
  - right. fold (outcome (orelse obj cls kwargs)) in Hout.
    rewrite orelse_outcome in Hout.
    destruct (kwargs !! "fork_inst") as [fork_inst|]; injection Hout as <-.
    + left. by exists fork_inst.
    + by right.
Qed.
End UnionRuns.

(** [Union[int, str]] on ["5"] returns ["5"]. *)
Lemma union_value_comes_from_first_success_witness :
  ∃ pre t post,
    get_union_params (TUnion [TInt; TStr]) = pre ++ t :: post
    ∧ Forall (DefaultUnion.conversion_fails ex_load (OStr "5") fork_kwargs) pre
    ∧ ex_load (OStr "5") t fork_kwargs = Ok (OStr "5")
    ∧ events (DefaultUnion.default_union_deserializer ex_load (OStr "5")
                (TUnion [TInt; TStr]) fork_kwargs)
      = DefaultUnion.attempts (OStr "5") fork_kwargs (pre ++ [t]).
Proof.
  apply (union_value_comes_from_first_success ex_load (OStr "5")
           (TUnion [TInt; TStr]) fork_kwargs (OStr "5")).
  reflexivity.
Defined.

(** [Union[int, bool]] on ["hello"], with a [fork_inst]. *)
Lemma union_exhaustion_error_witness :
  DefaultUnion.default_union_deserializer ex_load (OStr "hello")
    (TUnion [TInt; TBool]) fork_kwargs
  = (DefaultUnion.attempts (OStr "hello") fork_kwargs
       (get_union_params (TUnion [TInt; TBool])),
     Raise (DeserializationError
              (DefaultUnion.err_msg (TUnion [TInt; TBool]) OFork)
              (OStr "hello") (TUnion [TInt; TBool])))
  ∧ occurs (str (TUnion [TInt; TBool]))
      (DefaultUnion.err_msg (TUnion [TInt; TBool]) OFork) = true
  ∧ Forall (λ t, occurs (get_class_name t OFork)
                   (DefaultUnion.err_msg (TUnion [TInt; TBool]) OFork) = true)
      (__args__ (TUnion [TInt; TBool])).
Proof.
  apply (union_exhaustion_error ex_load (OStr "hello") (TUnion [TInt; TBool])
           fork_kwargs OFork).
  - repeat constructor; eexists; split; reflexivity.
  - reflexivity.
Defined.

(** [Union[int, bool]] on ["hello"], without a [fork_inst]. *)
Lemma union_exhausted_without_fork_witness :
  DefaultUnion.default_union_deserializer ex_load (OStr "hello")
    (TUnion [TInt; TBool]) ∅
  = (DefaultUnion.attempts (OStr "hello") ∅
       (get_union_params (TUnion [TInt; TBool])),
     Raise (KeyError "fork_inst")).
Proof.
  apply (union_exhausted_without_fork ex_load (OStr "hello")
           (TUnion [TInt; TBool]) ∅).
  - repeat constructor; eexists; split; reflexivity.
  - reflexivity.
Defined.

(** [Union[Point, str]] on ["5"] raises the [TypeError] of [Point]. *)
Lemma union_error_origin_witness :
  (∃ t, t ∈ get_union_params (TUnion [TClass "Point"; TStr])
        ∧ ex_load (OStr "5") t fork_kwargs = Raise (Raised false "TypeError")
        ∧ is_JsonsError (Raised false "TypeError" : exn) = false)
  ∨ (∃ fork_inst,
       fork_kwargs !! "fork_inst" = Some fork_inst
       ∧ Forall (DefaultUnion.conversion_fails ex_load (OStr "5") fork_kwargs)
           (get_union_params (TUnion [TClass "Point"; TStr]))
       ∧ (Raised false "TypeError" : exn)
         = DeserializationError
             (DefaultUnion.err_msg (TUnion [TClass "Point"; TStr]) fork_inst)
             (OStr "5") (TUnion [TClass "Point"; TStr]))
  ∨ (fork_kwargs !! "fork_inst" = None
     ∧ Forall (DefaultUnion.conversion_fails ex_load (OStr "5") fork_kwargs)
         (get_union_params (TUnion [TClass "Point"; TStr]))
     ∧ (Raised false "TypeError" : exn) = KeyError "fork_inst").
Proof.
  apply (union_error_origin ex_load (OStr "5") (TUnion [TClass "Point"; TStr])
           fork_kwargs (Raised false "TypeError")).
  reflexivity.
Defined.

(** ** The call adapter: pairing and failures *)

Section DecoratorRuns.
Context `{Python}.
Import Decorators.

Implicit Types (decorated func : callable) (mapper : mapper_t).
Implicit Types (fork_inst : value) (args : list value).
Implicit Types (kwargs mapper_kwargs : kwargs_t).
Implicit Types (suspending parameters returnvalue : bool).



(** X6: for a signature with distinct parameter names, [_get_params_sig]
    inspects the signature once and returns exactly when the arguments are
    at most as many as the parameters; it then pairs the i-th argument
    with the i-th parameter and leaves the surplus parameters out. *)
Theorem _get_params_sig_pairs_by_position args func :
  NoDup (map name (parameters (__signature__ func))) →
  events (_get_params_sig args func) = [SignatureCall func]
  ∧ ∀ pairs,
      outcome (_get_params_sig args func) = Ok pairs ↔
      length args ≤ length (parameters (__signature__ func))
      ∧ pairs = zip args (parameters (__signature__ func)).
Proof.
  intros Hnd.
  destruct (decide (length args ≤ length (parameters (__signature__ func))))
    as [Hlen|Hlen].
  - rewrite (_get_params_sig_ok _ _ Hnd Hlen). split; [done|].
    intros pairs. unfold outcome; cbn [snd]. split.
    + by intros [= <-].
    + by intros [_ ->].
  - rewrite _get_params_sig_overflow by lia. split; [done|].
    intros pairs. split; [done|]. by intros [? _].
Qed.


Lemma for_arg_sig_app pre vs rest decorated fork_inst mapper mapper_kwargs acc :
  Forall2 (forwarded decorated fork_inst mapper mapper_kwargs) pre vs →
  for_arg_sig (pre ++ rest) decorated fork_inst mapper mapper_kwargs acc
  = (conversions decorated fork_inst mapper_kwargs pre
     ++ events (for_arg_sig rest decorated fork_inst mapper mapper_kwargs
                  (acc ++ vs)),
     outcome (for_arg_sig rest decorated fork_inst mapper mapper_kwargs
                (acc ++ vs))).
Proof.
  intros HF. revert acc.
  induction HF as [|[arg sig] v pre vs Hv _ IH]; intros acc.
  { rewrite app_nil_r. cbn [app conversions flat_map].
    by destruct (for_arg_sig rest _ _ _ _ _). }
  cbn [app for_arg_sig conversions flat_map].
  unfold forwarded in Hv. cbn [fst snd] in Hv.
  destruct (is_receiver decorated arg sig).
  - subst v. rewrite bind_ret_l, IH. by rewrite <- app_assoc.
  - unfold call_mapper. rewrite bind_emit. cbn [lift fst snd].
    rewrite Hv, bind_ok, IH. cbn [fst snd app]. by rewrite <- app_assoc.
Qed.

(** X8: when the port raises on an argument, after the arguments before it
    went through, the wrapper raises that exception at once: the arguments
    after it are not converted and the wrapped callable is not called. *)
Theorem conversion_error_aborts_the_call suspending returnvalue fork_inst
    mapper mapper_kwargs decorated args kwargs pre arg sig post vs e :
  NoDup (map name (parameters (__signature__ decorated))) →
  length args ≤ length (parameters (__signature__ decorated)) →
  zip args (parameters (__signature__ decorated)) = pre ++ (arg, sig) :: post →
  Forall2 (forwarded decorated fork_inst mapper mapper_kwargs) pre vs →
  is_receiver decorated arg sig = false →
  mapper arg (cls_of (annotation sig)) fork_inst mapper_kwargs = Raise e →
  wrapper_run suspending true returnvalue fork_inst mapper mapper_kwargs
    decorated args kwargs
  = (SignatureCall decorated
     :: conversions decorated fork_inst mapper_kwargs pre
     ++ [MapperCall arg (cls_of (annotation sig)) fork_inst mapper_kwargs],
     Raise e).
Proof.
  intros Hnd Hlen Hzip Hpre Hrecv Hmap.
  assert (_run_decorated decorated (Some mapper) fork_inst args kwargs
            mapper_kwargs
          = (SignatureCall decorated
             :: conversions decorated fork_inst mapper_kwargs pre
             ++ [MapperCall arg (cls_of (annotation sig)) fork_inst
                   mapper_kwargs],
             Raise e)) as Hrun.
  { rewrite _run_decorated_Some. unfold _map_args.
    rewrite (_get_params_sig_ok _ _ Hnd Hlen), bind_ok, Hzip.
    rewrite (for_arg_sig_app _ _ _ _ _ _ _ _ Hpre).
    cbn [for_arg_sig]. rewrite Hrecv. unfold call_mapper.
    rewrite bind_emit. cbn [lift fst snd]. by rewrite Hmap, bind_raise. }
  destruct suspending; cbn [wrapper_run];
    unfold _async_wrapper, _wrapper; by rewrite Hrun, !bind_raise.
Qed.

(** X9: when the wrapped callable raises, either wrapper raises the same
    exception and does nothing after the call: no await, no inspection of
    the signature for the return value, no call of the port. *)
Theorem callable_error_skips_return_conversion suspending parameters
    returnvalue fork_inst mapper mapper_kwargs decorated args kwargs tr
    new_args e :
  arg_step parameters decorated fork_inst mapper args mapper_kwargs
    = (tr, Ok new_args) →
  __call__ decorated new_args kwargs = Raise e →
  wrapper_run suspending parameters returnvalue fork_inst mapper mapper_kwargs
    decorated args kwargs
  = (tr ++ [DecoratedCall decorated new_args kwargs], Raise e).
Proof.
  intros Hstep Hcall.
  assert (_run_decorated decorated (if parameters then Some mapper else None)
            fork_inst args kwargs mapper_kwargs
          = (tr ++ [DecoratedCall decorated new_args kwargs], Raise e))
    as Hrun.
  { rewrite _run_decorated_arg_step, Hstep, bind_ok.
    unfold call_decorated. rewrite bind_emit. cbn [lift fst snd].
    by rewrite Hcall. }
  destruct suspending; cbn [wrapper_run];
    unfold _async_wrapper, _wrapper; by rewrite Hrun, !bind_raise.
Qed.

(** X10: when awaiting what the wrapped callable returned raises (the
    awaited operation fails or is cancelled), the suspending wrapper raises
    the same exception and performs no return-value conversion. *)
Theorem await_error_skips_return_conversion parameters returnvalue fork_inst
    mapper mapper_kwargs decorated args kwargs tr aw e :
  _run_decorated decorated (if parameters then Some mapper else None)
    fork_inst args kwargs mapper_kwargs = (tr, Ok aw) →
  isawaitable aw = true →
  await aw = Raise e →
  _async_wrapper parameters returnvalue fork_inst mapper mapper_kwargs
    decorated args kwargs
  = (tr ++ [AwaitCall aw], Raise e).
Proof.
  intros Hrun Haw He. unfold _async_wrapper, call_await.
  rewrite Hrun, bind_ok, Haw, bind_emit. cbn [lift fst snd].
  by rewrite He, bind_raise.
Qed.

(** X11: when what the wrapped callable returns is not awaitable, a run of
    the suspending wrapper is a run of the ordinary wrapper: the same
    events and the same outcome. *)
Theorem suspending_wrapper_on_plain_result parameters returnvalue fork_inst
    mapper mapper_kwargs decorated args kwargs :
  (∀ raw,
     outcome (_run_decorated decorated
                (if parameters then Some mapper else None)
                fork_inst args kwargs mapper_kwargs) = Ok raw →
     isawaitable raw = false) →
  _async_wrapper parameters returnvalue fork_inst mapper mapper_kwargs
    decorated args kwargs
  = _wrapper parameters returnvalue fork_inst mapper mapper_kwargs decorated
      args kwargs.
Proof.
  intros Hplain. unfold _async_wrapper, _wrapper.
  destruct (_run_decorated decorated _ fork_inst args kwargs mapper_kwargs)
    as [tr [raw|e]]; [|done].
  rewrite !bind_ok, (Hplain raw eq_refl), bind_ret_l. done.
Qed.
End DecoratorRuns.

(** ** The call adapter: what a run consists of *)

Section DecoratorTraces.
Context `{Python}.
Import Decorators Stacked.

Implicit Types (decorated func : callable) (mapper port : mapper_t).
Implicit Types (fork_inst : value) (args : list value).
Implicit Types (kwargs mapper_kwargs : kwargs_t).
Implicit Types (suspending parameters returnvalue : bool).

Lemma arg_step_length parameters decorated fork_inst mapper args
    mapper_kwargs new_args :
  outcome (arg_step parameters decorated fork_inst mapper args mapper_kwargs)
    = Ok new_args →
  length new_args = length args.
Proof.
  destruct parameters; cbn [arg_step]; [|by intros [= <-]].
  unfold _map_args, _get_params_sig, signature.
  rewrite !bind_assoc, bind_emit, bind_ret_l. cbn [fst snd].
  set (f := λ i : nat, _). set (c := comprehension f _).
  pose proof (comprehension_outcome f (seq 0 (length args))) as Hout.
  fold c in Hout. destruct c as [trc [pairs|e]]; [|done].
  rewrite bind_ok. unfold outcome. cbn [snd]. intros Hfor.
  destruct (for_arg_sig_spec pairs decorated fork_inst mapper mapper_kwargs [])
    as (_ & Hiff & _).
  apply Hiff in Hfor as (vs & -> & HF).
  apply Forall2_length in HF. specialize (Hout pairs eq_refl).
  apply Forall2_length in Hout. rewrite length_seq in Hout.
  cbn [app]. lia.
Qed.

Lemma decorated_call_inv suspending parameters returnvalue fork_inst mapper
    mapper_kwargs decorated args kwargs f a k :
  DecoratedCall f a k
    ∈ events (wrapper_run suspending parameters returnvalue fork_inst mapper
                mapper_kwargs decorated args kwargs) →
  outcome (arg_step parameters decorated fork_inst mapper args mapper_kwargs)
    = Ok a.
Proof.
  rewrite wrapper_run_events.
  destruct (wrapper_run_false_events suspending parameters fork_inst mapper
              mapper_kwargs decorated args kwargs) as (tr & -> & Htr).
  rewrite _run_decorated_events, !elem_of_app.
  pose proof (arg_step_events parameters decorated fork_inst mapper args
                mapper_kwargs) as Hstep.
  rewrite Forall_forall in Hstep, Htr.
  intros [[[Hin|Hin]|Hin]|Hin].
  - by destruct (Hstep _ Hin) as [?|(?&?&?&?)].
  - destruct (outcome (arg_step _ _ _ _ _ _)) as [new_args|e];
      [|by apply elem_of_nil in Hin].
    apply list_elem_of_singleton in Hin. by injection Hin as _ -> _.
  - by destruct (Htr _ Hin).
  - destruct (outcome (wrapper_run _ _ _ _ _ _ _ _ _));
      [|by apply elem_of_nil in Hin].
    destruct returnvalue; [|by apply elem_of_nil in Hin].
    apply elem_of_cons in Hin as [?|Hin]; [done|].
    by apply list_elem_of_singleton in Hin.
Qed.

(** X12: for a plain function, [loaded] and [dumped] with both flags false
    return the ordinary wrapper, and a run of it is the call of the
    wrapped callable on the arguments as they were supplied and nothing
    else: the signature is not inspected and the port is not called. *)
Theorem both_flags_off_is_transparent port fork_inst kwargs_ decorated :
  kind decorated = FunctionObj false →
  ∃ w,
    loaded port false false fork_inst kwargs_ decorated
      = ([], Ok (OrdinaryWrapper w))
    ∧ dumped port false false fork_inst kwargs_ decorated
      = ([], Ok (OrdinaryWrapper w))
    ∧ ∀ args kwargs,
        w args kwargs
        = ([DecoratedCall decorated args kwargs],
           __call__ decorated args kwargs).
Proof.
  intros Hk. eexists. split; [|split].
  - unfold loaded, _get_decorator, _decorator, isinstance_staticmethod,
      isinstance_type, iscoroutinefunction.
    rewrite Hk. reflexivity.
  - unfold dumped, _get_decorator, _decorator, isinstance_staticmethod,
      isinstance_type, iscoroutinefunction.
    rewrite Hk. reflexivity.
  - intros args kwargs. rewrite _wrapper_false. apply _run_decorated_None.
Qed.

(** X13: in a run of either wrapper every call of the port is made with
    the [fork_inst] and the keyword arguments that the decorator was
    given, and the only signature inspected is that of the wrapped
    callable. *)
Theorem port_calls_carry_fork_and_options suspending parameters returnvalue
    fork_inst mapper mapper_kwargs decorated args kwargs :
  (∀ v cls f k,
     MapperCall v cls f k
       ∈ events (wrapper_run suspending parameters returnvalue fork_inst
                   mapper mapper_kwargs decorated args kwargs) →
     f = fork_inst ∧ k = mapper_kwargs)
  ∧ (∀ g,
       SignatureCall g
         ∈ events (wrapper_run suspending parameters returnvalue fork_inst
                     mapper mapper_kwargs decorated args kwargs) →
       g = decorated).
Proof.
  pose proof (wrapper_events_classified suspending parameters returnvalue
                fork_inst mapper mapper_kwargs decorated args kwargs) as Hcl.
  rewrite Forall_forall in Hcl. split.
  - intros v cls f k Hin.
    destruct (Hcl _ Hin)
      as [?|[(?&?&?&Heq)|[(?&?)|[(?&?)|(?&?&?&Heq)]]]]; try done;
      by injection Heq as _ _ -> ->.
  - intros g Hin.
    destruct (Hcl _ Hin)
      as [Heq|[(?&?&?&?)|[(?&?)|[(?&?)|(?&?&?&?)]]]]; try done.
    by injection Heq as ->.
Qed.

(** X14: the wrapped callable is always called with exactly as many
    positional arguments as the wrapper was: conversion neither drops nor
    adds an argument. *)
Theorem positional_arity_is_preserved suspending parameters returnvalue
    fork_inst mapper mapper_kwargs decorated args kwargs f a k :
  DecoratedCall f a k
    ∈ events (wrapper_run suspending parameters returnvalue fork_inst mapper
                mapper_kwargs decorated args kwargs) →
  length a = length args.
Proof.
  intros Hin%decorated_call_inv. by eapply arg_step_length.
Qed.

(** X15: a run in which every collaborator returns.  For a plain function
    whose parameter names are distinct, called through the wrapper that
    [loaded] (or [dumped]) returns with both flags true on at most as many
    arguments as parameters: when the port returns for every argument that
    is not a receiver, the wrapped callable returns [raw] on the resulting
    list and the port returns [v] on [raw], the run returns [v], and its
    events are, in this order, the inspection of the signature, the port
    calls on the arguments, the call, the second inspection and the port
    call on [raw]. *)
Theorem loaded_run_in_order port fork_inst kwargs_ decorated args kwargs
    new_args raw v :
  kind decorated = FunctionObj false →
  NoDup (map name (parameters (__signature__ decorated))) →
  length args ≤ length (parameters (__signature__ decorated)) →
  Forall2 (forwarded decorated fork_inst port kwargs_)
    (zip args (parameters (__signature__ decorated))) new_args →
  __call__ decorated new_args kwargs = Ok raw →
  port raw (cls_of (return_annotation (__signature__ decorated))) fork_inst
    kwargs_ = Ok v →
  ∃ w,
    loaded port true true fork_inst kwargs_ decorated
      = ([], Ok (OrdinaryWrapper w))
    ∧ dumped port true true fork_inst kwargs_ decorated
      = ([], Ok (OrdinaryWrapper w))
    ∧ w args kwargs
      = (SignatureCall decorated
         :: conversions decorated fork_inst kwargs_
              (zip args (parameters (__signature__ decorated)))
         ++ [DecoratedCall decorated new_args kwargs;
             SignatureCall decorated;
             MapperCall raw
               (cls_of (return_annotation (__signature__ decorated)))
               fork_inst kwargs_],
         Ok v).
Proof.
  intros Hk Hnd Hlen HF Hcall Hret. eexists. split; [|split].
  - unfold loaded, _get_decorator, _decorator, isinstance_staticmethod,
      isinstance_type, iscoroutinefunction.
    rewrite Hk. reflexivity.
  - unfold dumped, _get_decorator, _decorator, isinstance_staticmethod,
      isinstance_type, iscoroutinefunction.
    rewrite Hk. reflexivity.
  - unfold _wrapper. rewrite _run_decorated_Some. unfold _map_args.
    rewrite (_get_params_sig_ok _ _ Hnd Hlen), bind_ok.
    destruct (for_arg_sig_spec
                (zip args (parameters (__signature__ decorated)))
                decorated fork_inst port kwargs_ []) as (_ & Hiff & Hfull).
    assert (outcome (for_arg_sig
                       (zip args (parameters (__signature__ decorated)))
                       decorated fork_inst port kwargs_ []) = Ok new_args)
      as Hout by (apply Hiff; by exists new_args).
    specialize (Hfull _ Hout).
    destruct (for_arg_sig _ _ _ _ _ _) as [tr r].
    unfold events, outcome in *. cbn [fst snd] in *. subst tr r.
    rewrite Hcall, bind_ok, _map_returnvalue_eq, Hret. cbn [fst snd app].
    by rewrite <- app_assoc.
Qed.

(** X16: called without positional arguments, the wrapper with
    [parameters] true converts nothing: arguments passed by keyword reach
    the wrapped callable as they are, whatever the annotations. *)
Theorem keyword_only_call_converts_nothing fork_inst mapper mapper_kwargs
    decorated kwargs :
  _wrapper true false fork_inst mapper mapper_kwargs decorated [] kwargs
  = ([SignatureCall decorated; DecoratedCall decorated [] kwargs],
     __call__ decorated [] kwargs).
Proof. rewrite _wrapper_false, _run_decorated_Some. reflexivity. Qed.

End DecoratorTraces.

(** ** An adapter on top of an adapter *)

Section StackedAdapters.
Context `{Python}.
Import Decorators Stacked.

Implicit Types (decorated inner : callable) (mapper : mapper_t).
Implicit Types (fork_inst : value) (args : list value).
Implicit Types (kwargs mapper_kwargs : kwargs_t).
Implicit Types (suspending parameters returnvalue : bool).

Lemma _map_args_events_prefix args decorated fork_inst mapper mapper_kwargs :
  NoDup (map name (parameters (__signature__ decorated))) →
  ∃ k, events (_map_args args decorated fork_inst mapper mapper_kwargs)
       = SignatureCall decorated
         :: take k (conversions decorated fork_inst mapper_kwargs
                      (zip args (parameters (__signature__ decorated)))).
Proof.
  intros Hnd. unfold _map_args.
  destruct (decide (length args
                    ≤ length (parameters (__signature__ decorated))))
    as [Hlen|Hlen].
  - rewrite (_get_params_sig_ok _ _ Hnd Hlen), bind_ok.
    destruct (for_arg_sig_spec
                (zip args (parameters (__signature__ decorated)))
                decorated fork_inst mapper mapper_kwargs [])
      as ([k Hev] & _ & _).
    exists k. unfold events in *. cbn [fst app]. by rewrite Hev.
  - rewrite _get_params_sig_overflow, bind_raise by lia. by exists 0.
Qed.

(** On a callable that has the signature of a wrapper, every port call is
    made without a target class. *)
Lemma untyped_signature_port_calls suspending parameters returnvalue fork_inst
    mapper mapper_kwargs inner args kwargs v cls f k :
  __signature__ inner = wrapper_signature →
  MapperCall v cls f k
    ∈ events (wrapper_run suspending parameters returnvalue fork_inst mapper
                mapper_kwargs inner args kwargs) →
  cls = None.
Proof.
  intros Hsig. rewrite wrapper_run_events.
  destruct (wrapper_run_false_events suspending parameters fork_inst mapper
              mapper_kwargs inner args kwargs) as (tr & -> & Htr).
  rewrite _run_decorated_events, !elem_of_app.
  rewrite Forall_forall in Htr.
  intros [[[Hin|Hin]|Hin]|Hin].
  - destruct parameters; cbn [arg_step] in Hin;
      [|by apply elem_of_nil in Hin].
    destruct (_map_args_events_prefix args inner fork_inst mapper mapper_kwargs)
      as [n Hev].
    { rewrite Hsig. cbn. apply NoDup_cons. split; [|apply NoDup_singleton].
      by intros ?%list_elem_of_singleton. }
    rewrite Hev in Hin. apply elem_of_cons in Hin as [?|Hin]; [done|].
    apply elem_of_take in Hin as (j & Hj & _).
    apply list_elem_of_lookup_2, conversions_elem in Hj
      as (arg & sig & Hp & _ & Heq).
    injection Heq as _ -> _ _.
    apply list_elem_of_lookup_1 in Hp as [i Hi].
    apply lookup_zip_with_Some in Hi as (a' & p' & [= _ <-] & _ & Hp').
    rewrite Hsig in Hp'. apply list_elem_of_lookup_2 in Hp'. cbn in Hp'.
    apply elem_of_cons in Hp' as [->|Hp']; [done|].
    by apply list_elem_of_singleton in Hp' as ->.
  - destruct (outcome (arg_step _ _ _ _ _ _));
      [|by apply elem_of_nil in Hin].
    by apply list_elem_of_singleton in Hin.
  - by destruct (Htr _ Hin).
  - destruct (outcome (wrapper_run _ _ _ _ _ _ _ _ _));
      [|by apply elem_of_nil in Hin].
    destruct returnvalue; [|by apply elem_of_nil in Hin].
    apply elem_of_cons in Hin as [?|Hin]; [done|].
    apply list_elem_of_singleton in Hin. injection Hin as _ -> _ _.
    by rewrite Hsig.
Qed.

(** X18: decorating a wrapper again.  The wrapper is [_wrapper( *args,
    **kwargs)] whatever it wraps, so the outer adapter never passes a
    target class to the port, neither for an argument nor for the return
    value; and with [parameters] true it raises [IndexError] on more than
    two positional arguments, however many the innermost callable takes. *)
Theorem stacked_adapter_sees_untyped_wrapper suspending parameters returnvalue
    fork_inst mapper mapper_kwargs parameters' returnvalue' fork_inst' mapper'
    mapper_kwargs' decorated args kwargs :
  (∀ v cls f k,
     MapperCall v cls f k
       ∈ events (wrapper_run suspending parameters returnvalue fork_inst
                   mapper mapper_kwargs
                   (_wrapper_callable parameters' returnvalue' fork_inst'
                      mapper' mapper_kwargs' decorated)
                   args kwargs) →
     cls = None)
  ∧ (2 < length args →
     wrapper_run suspending true returnvalue fork_inst mapper mapper_kwargs
       (_wrapper_callable parameters' returnvalue' fork_inst' mapper'
          mapper_kwargs' decorated)
       args kwargs
     = ([SignatureCall
           (_wrapper_callable parameters' returnvalue' fork_inst' mapper'
              mapper_kwargs' decorated)],
        Raise IndexError)).
Proof.
  split.
  - intros v cls f k. by apply untyped_signature_port_calls.
  - intros Hlen. by apply wrapper_run_overflow.
Qed.
End StackedAdapters.

(** *** Runs *)

Import Inputs Stacked.

(** [circle.scale(3)]: two arguments for two parameters. *)
Lemma _get_params_sig_pairs_by_position_witness :
  events (_get_params_sig [circle; OInt 3] scale) = [SignatureCall scale]
  ∧ outcome (_get_params_sig [circle; OInt 3] scale)
    = Ok (zip [circle; OInt 3] (parameters (__signature__ scale))).
Proof.
  destruct (_get_params_sig_pairs_by_position [circle; OInt 3] scale)
    as [Hev Hiff]; [compute_done|].
  split; [exact Hev|]. apply Hiff. split; [simpl; lia | reflexivity].
Defined.

(** [circle.scale("x")]: the receiver goes through, loading ["x"] as [int]
    fails and [scale] is not called. *)
Lemma conversion_error_aborts_the_call_witness :
  wrapper_run false true true OFork ex_mapper ∅ scale [circle; OStr "x"] ∅
  = (SignatureCall scale
     :: conversions scale OFork ∅
          [(circle, {| name := "self"; annotation := Parameter_empty |})]
     ++ [MapperCall (OStr "x")
           (cls_of (annotation
                      {| name := "factor";
                         annotation := Annotated (Some TInt) |}))
           OFork ∅],
     Raise (DeserializationError "Invalid type" (OStr "x") TInt)).
Proof.
  apply (conversion_error_aborts_the_call false true OFork ex_mapper ∅ scale
           [circle; OStr "x"] ∅
           [(circle, {| name := "self"; annotation := Parameter_empty |})]
           (OStr "x")
           {| name := "factor"; annotation := Annotated (Some TInt) |}
           [] [circle]).
  - compute_done.
  - simpl. lia.
  - reflexivity.
  - repeat constructor; vm_compute; reflexivity.
  - reflexivity.
  - reflexivity.
Defined.

(** [broken(1)] through the adapter with both flags true. *)
Lemma callable_error_skips_return_conversion_witness :
  wrapper_run false true true OFork ex_mapper ∅ broken [OInt 1] ∅
  = ([SignatureCall broken; MapperCall (OInt 1) None OFork ∅]
     ++ [DecoratedCall broken [OInt 1] ∅],
     Raise (Raised false "RuntimeError")).
Proof.
  apply (callable_error_skips_return_conversion false true true OFork
           ex_mapper ∅ broken [OInt 1] ∅); reflexivity.
Defined.

(** Awaiting the adapted [job], which is cancelled. *)
Lemma await_error_skips_return_conversion_witness :
  _async_wrapper (H := Cancellation.python) true true (Cancellation.CStr "fork")
    Cancellation.c_mapper ∅ Cancellation.job [] ∅
  = ([SignatureCall Cancellation.job; DecoratedCall Cancellation.job [] ∅]
     ++ [AwaitCall (H := Cancellation.python) (Cancellation.CTask None)],
     Raise (Raised false "CancelledError")).
Proof.
  apply (await_error_skips_return_conversion (H := Cancellation.python)
           true true (Cancellation.CStr "fork") Cancellation.c_mapper ∅
           Cancellation.job [] ∅); reflexivity.
Defined.

(** [func] returns a string, which is not awaitable. *)
Lemma suspending_wrapper_on_plain_result_witness :
  _async_wrapper true true OFork ex_mapper ∅ func
    [OStr "2018-10-04T21:57:00Z"] ∅
  = _wrapper true true OFork ex_mapper ∅ func [OStr "2018-10-04T21:57:00Z"] ∅.
Proof.
  apply (suspending_wrapper_on_plain_result true true OFork ex_mapper ∅ func
           [OStr "2018-10-04T21:57:00Z"] ∅).
  intros raw [= <-]. reflexivity.
Defined.

(** [loaded(parameters=False, returnvalue=False)] on [func]. *)
Lemma both_flags_off_is_transparent_witness :
  ∃ w,
    loaded ex_mapper false false OFork ∅ func = ([], Ok (OrdinaryWrapper w))
    ∧ dumped ex_mapper false false OFork ∅ func = ([], Ok (OrdinaryWrapper w))
    ∧ ∀ args kwargs,
        w args kwargs
        = ([DecoratedCall func args kwargs], __call__ func args kwargs).
Proof.
  apply (both_flags_off_is_transparent ex_mapper OFork ∅ func). reflexivity.
Defined.

(** [circle.scale(3)]: [scale] is called with two arguments. *)
Lemma positional_arity_is_preserved_witness :
  length [circle; OInt 3] = length [circle; OInt 3].
Proof.
  apply (positional_arity_is_preserved false true true OFork ex_mapper ∅ scale
           [circle; OInt 3] ∅ scale [circle; OInt 3] ∅).
  vm_compute. do 2 apply list_elem_of_further. apply list_elem_of_here.
Defined.

(** The example of the docstring of [loaded], event by event. *)
Lemma loaded_run_in_order_witness :
  ∃ w,
    loaded ex_mapper true true OFork ∅ func = ([], Ok (OrdinaryWrapper w))
    ∧ dumped ex_mapper true true OFork ∅ func = ([], Ok (OrdinaryWrapper w))
    ∧ w [OStr "2018-10-04T21:57:00Z"] ∅
      = (SignatureCall func
         :: conversions func OFork ∅
              (zip [OStr "2018-10-04T21:57:00Z"]
                 (parameters (__signature__ func)))
         ++ [DecoratedCall func [ODatetime "2018-10-04T21:57:00Z"] ∅;
             SignatureCall func;
             MapperCall (OStr "2018-10-04T21:57:00Z")
               (cls_of (return_annotation (__signature__ func))) OFork ∅],
         Ok (ODatetime "2018-10-04T21:57:00Z")).
Proof.
  apply (loaded_run_in_order ex_mapper OFork ∅ func
           [OStr "2018-10-04T21:57:00Z"] ∅
           [ODatetime "2018-10-04T21:57:00Z"]
           (OStr "2018-10-04T21:57:00Z")
           (ODatetime "2018-10-04T21:57:00Z")).
  - reflexivity.
  - compute_done.
  - simpl. lia.
  - repeat constructor; vm_compute; reflexivity.
  - reflexivity.
  - reflexivity.
Defined.

(** [add] takes three arguments; decorated twice, a call with three
    positional arguments fails in the outer adapter. *)
Lemma stacked_adapter_sees_untyped_wrapper_witness :
  wrapper_run false true true OFork ex_mapper ∅
    (_wrapper_callable true true OFork ex_mapper ∅ add)
    [OInt 1; OInt 2; OInt 3] ∅
  = ([SignatureCall (_wrapper_callable true true OFork ex_mapper ∅ add)],
     Raise IndexError).
Proof.
  apply (proj2 (stacked_adapter_sees_untyped_wrapper false true true OFork
                  ex_mapper ∅ true true OFork ex_mapper ∅ add
                  [OInt 1; OInt 2; OInt 3] ∅)).
  simpl. lia.
Defined.
